(** * rosbag2_bag_v2: the read-only storage plugin and its deserializer

    A shallow embedding of
    - [rosbag2_bag_v2_plugins/storage/rosbag_v2_storage.cpp] (class
      [RosbagV2Storage]) and
    - [rosbag2_bag_v2_plugins/converter/rosbag_v2_deserializer.cpp] (class
      [RosbagV2Deserializer]),
    together with the part of the ROS 1 [rosbag] and [ros::Time] interfaces
    these two files call. *)

From Stdlib Require Import ZArith Strings.String Strings.Ascii Strings.Byte.
From stdpp Require Import base tactics option list strings.

#[local] Open Scope string_scope.
#[local] Open Scope list_scope.
#[local] Open Scope Z_scope.

(** ** Outcomes of a call

    A member function returns, throws, or runs into undefined behaviour.  The
    error kinds are the four of the design; in the code [UnsupportedModeError]
    is the [std::runtime_error] thrown at the head of [open], [OpenError]
    the exception of [rosbag::Bag::open]. *)

Inductive error : Type :=
  | UnsupportedModeError
  | OpenError
  | EndOfLogError
  | UnmappedTypeError.

Inductive fault : Type :=
  | NullDereference      (* a pointer that was never set is dereferenced *)
  | PastTheEnd           (* the end iterator of a view is dereferenced *)
  | BufferOverrun.       (* a read runs off the end of a byte buffer *)

Inductive outcome (A : Type) : Type :=
  | Returns (a : A)
  | Throws (e : error)
  | Undefined (f : fault).

Arguments Returns {A} a.
Arguments Throws {A} e.
Arguments Undefined {A} f.

#[global] Instance error_eq_dec : EqDecision error.
Proof. solve_decision. Defined.

#[global] Instance fault_eq_dec : EqDecision fault.
Proof. solve_decision. Defined.

#[global] Instance byte_eq_dec : EqDecision byte := Byte.byte_eq_dec.

(** ** Machine integers *)

Definition uint32 (z : Z) : Prop := 0 <= z < 2 ^ 32.

Definition wrap_uint32 (z : Z) : Z := z mod 2 ^ 32.
Definition wrap_uint64 (z : Z) : Z := z mod 2 ^ 64.

(** Conversion of a [uint64_t] to [int64_t] (two's complement). *)
Definition int64_of_uint64 (z : Z) : Z :=
  if z <? 2 ^ 63 then z else z - 2 ^ 64.

(** ** C strings

    [std::string] values are [string]s; byte buffers are [list byte].
    A [const char *] is read up to its first NUL. *)

Definition NUL : byte := x00.

Definition bytes (s : string) : list byte := list_byte_of_string s.

Fixpoint until_nul (buf : list byte) : list byte :=
  match buf with
  | [] => []
  | b :: rest => if decide (b = NUL) then [] else b :: until_nul rest
  end.

(** [std::string(reinterpret_cast<char *>(buffer))]: the bytes before the
    first NUL; without a NUL inside the buffer the constructor reads past
    its end. *)
Definition string_of_char_ptr (buf : list byte) : outcome string :=
  if decide (NUL ∈ buf) then Returns (string_of_list_byte (until_nul buf))
  else Undefined BufferOverrun.

(** [s.c_str()] handed to a callee that takes a [const char *]. *)
Definition c_str (s : string) : string :=
  string_of_list_byte (until_nul (bytes s)).

Definition nul_free (s : string) : Prop := NUL ∉ bytes s.

#[global] Instance nul_free_dec s : Decision (nul_free s).
Proof. unfold nul_free. apply _. Defined.

(** ** The ROS 1 side: [ros::Time], [rosbag::Bag], [rosbag::View] *)

Module ros.

(** [ros::Time]: two [uint32_t] fields. *)
Record Time : Type := { sec : Z; nsec : Z }.

Definition Time_ok (t : Time) : Prop := uint32 (sec t) /\ uint32 (nsec t).

(** [(uint64_t)sec * 1000000000ull + (uint64_t)nsec] *)
Definition toNSec (t : Time) : Z :=
  wrap_uint64 (sec t * 1000000000 + nsec t).

Definition TIME_MAX : Time := {| sec := 2 ^ 32 - 1; nsec := 999999999 |}.
Definition TIME_MIN : Time := {| sec := 0; nsec := 1 |}.

Definition ltb (a b : Time) : bool :=
  (sec a <? sec b) || ((sec a =? sec b) && (nsec a <? nsec b)).

End ros.

Module rosbag.

(** [rosbag::ConnectionInfo]: the two fields the plugin reads. *)
Record ConnectionInfo : Type := {
  topic : string;
  datatype : string
}.

(** [rosbag::MessageInstance]: one record of the log. *)
Record MessageInstance : Type := {
  connection_info_ : ConnectionInfo;
  time : ros.Time;
  data : list byte          (* the serialized ROS 1 message as stored *)
}.

Definition getTopic (m : MessageInstance) : string :=
  topic (connection_info_ m).
Definition getDataType (m : MessageInstance) : string :=
  datatype (connection_info_ m).
Definition getTime (m : MessageInstance) : ros.Time := time m.

(** [rosbag::Bag], as seen through its views: the file name, the
    connections that the unrestricted view reports, and the records in the
    order in which the unrestricted view yields them. *)
Record Bag : Type := {
  file_name : string;
  connections_ : list ConnectionInfo;
  messages_ : list MessageInstance
}.

(** A bag that has not been opened. *)
Definition empty_Bag : Bag :=
  {| file_name := ""; connections_ := []; messages_ := [] |}.

(** Every record belongs to one of the bag's connections. *)
Definition Bag_ok (b : Bag) : Prop :=
  forall m, m ∈ messages_ b -> connection_info_ m ∈ connections_ b.

(** A query selects connections. *)
Definition Query : Type := ConnectionInfo -> bool.

Definition TrueQuery : Query := fun _ => true.

(** [rosbag::TopicQuery(topics)]: the connection's topic is one of
    [topics]. *)
Definition TopicQuery (topics : list string) : Query :=
  fun info => bool_decide (topic info ∈ topics).

(** [rosbag::View]: the connections and records of a bag that satisfy a
    query; the restriction keeps the order of the records. *)
Record View : Type := {
  view_connections : list ConnectionInfo;
  view_messages : list MessageInstance
}.

Definition make_View (b : Bag) (q : Query) : View :=
  {| view_connections := filter (fun c => q c) (connections_ b);
     view_messages := filter (fun m => q (connection_info_ m)) (messages_ b) |}.

Definition getConnections (v : View) : list ConnectionInfo :=
  view_connections v.

(** [uint32_t View::size()] *)
Definition size (v : View) : Z :=
  wrap_uint32 (Z.of_nat (length (view_messages v))).

(** [View::getBeginTime]: the least time in the view, starting from
    [TIME_MAX]. *)
Definition getBeginTime (v : View) : ros.Time :=
  foldl (fun begin m => if ros.ltb (time m) begin then time m else begin)
        ros.TIME_MAX (view_messages v).

(** [View::getEndTime]: the greatest time in the view, starting from
    [TIME_MIN]. *)
Definition getEndTime (v : View) : ros.Time :=
  foldl (fun end_ m => if ros.ltb end_ (time m) then time m else end_)
        ros.TIME_MIN (view_messages v).

(** Iterators of a view are positions: [begin] is 0, [end] the number of
    records. *)
Definition begin_ (v : View) : nat := 0%nat.
Definition end_ (v : View) : nat := length (view_messages v).

End rosbag.

(** ** The host side: [rosbag2_storage] *)

Module rosbag2_storage.

(** Modelled from the spec: the enumeration [storage_interfaces::IOFlag] is
    declared by the host framework and is not part of these sources; the
    design names a read-only mode and a mode that requests write access,
    which the code spells [READ_WRITE]. *)
Inductive IOFlag : Type := READ_ONLY | READ_WRITE.

#[global] Instance IOFlag_eq_dec : EqDecision IOFlag.
Proof. solve_decision. Defined.

Record TopicMetadata : Type := {
  name : string;
  type : string;
  serialization_format : string
}.

(** [operator==] of [TopicMetadata] compares the fields. *)
#[global] Instance TopicMetadata_eq_dec : EqDecision TopicMetadata.
Proof. solve_decision. Defined.

Record TopicInformation : Type := {
  topic_metadata : TopicMetadata;
  message_count : Z
}.

Record BagMetadata : Type := {
  version : Z;
  bag_size : Z;
  storage_identifier : string;
  relative_file_paths : list string;
  duration : Z;                  (* [std::chrono::nanoseconds], signed *)
  starting_time : Z;             (* nanoseconds since the epoch, signed *)
  total_message_count : Z;       (* the field [message_count] *)
  topics_with_message_count : list TopicInformation
}.

(** [time_stamp] is an [rcutils_time_point_value_t], an [int64_t]. *)
Record SerializedBagMessage : Type := {
  serialized_data : list byte;
  time_stamp : Z;
  topic_name : string
}.

End rosbag2_storage.

Import rosbag2_storage.

(** ** The file system

    What the plugin and [rosbag::Bag::open] ask of the file system: the
    parsed contents of a bag file (none when the file is missing or corrupt),
    [rcutils_get_file_size] and the last component of a path. *)

Record FileSystem : Type := {
  contents : string -> option (list rosbag.ConnectionInfo * list rosbag.MessageInstance);
  file_size : string -> Z;
  path_filename : string -> string
}.

(** What a call leaves behind: its file-system calls and the lines it
    logs, in order. *)
Inductive event : Type :=
  | OpenFile (path : string)
  | StatFile (path : string)
  | LogInfo (text : string).

Definition io (A : Type) : Type := (list event * A)%type.

(** [rosbag::Bag::open(uri)] *)
Definition Bag_open (fs : FileSystem) (uri : string) : io (outcome rosbag.Bag) :=
  ([OpenFile uri],
   match contents fs uri with
   | Some (conns, msgs) =>
       Returns {| rosbag.file_name := uri;
                  rosbag.connections_ := conns;
                  rosbag.messages_ := msgs |}
   | None => Throws OpenError
   end).

(** [rcutils_get_file_size(path)], a [size_t]. *)
Definition rcutils_get_file_size (fs : FileSystem) (path : string) : io Z :=
  ([StatFile path], wrap_uint64 (file_size fs path)).

(** ** Helpers declared outside the two source files *)

(** Modelled from the spec: [vector_has_already_element<T>(vector, element)]
    is declared in the header of the storage class, which is not part of
    these sources.  As its name and its two call sites say, it answers
    whether [element] is already in [vector]; elements are compared with the
    [operator==] of [T], equality of strings in [open] and equality of all
    fields of a [TopicMetadata] in
    [get_all_topics_and_types_including_ros1_topics]. *)
Definition vector_has_already_element {T : Type} `{EqDecision T}
    (vector : list T) (element : T) : bool :=
  bool_decide (element ∈ vector).

(** Modelled from the spec: [RosbagOutputStream] is defined in
    [rosbag_output_stream.cpp], which is not part of these sources.  The
    stream starts with the type name followed by a null terminator; whatever
    is written to it afterwards is appended as it is. *)
Module RosbagOutputStream.

Definition t : Type := list byte.

Definition new (type_name : string) : t := bytes type_name ++ [NUL].

Definition write (stream : t) (raw : list byte) : t := stream ++ raw.

Definition get_content (stream : t) : list byte := stream.

End RosbagOutputStream.

(** [MessageInstance::write(stream)] copies the stored bytes of the record
    to the stream. *)
Definition MessageInstance_write (m : rosbag.MessageInstance)
    (stream : RosbagOutputStream.t) : RosbagOutputStream.t :=
  RosbagOutputStream.write stream (rosbag.data m).

Definition IDENTIFIER : string := "rosbag_v2".

(** Sequencing of calls: the first failure ends the computation. *)
#[global] Instance outcome_ret : MRet outcome := fun _ a => Returns a.

#[global] Instance outcome_bind : MBind outcome := fun _ _ k c =>
  match c with
  | Returns a => k a
  | Throws e => Throws e
  | Undefined f => Undefined f
  end.

(** ** The generic message object of the host ([rosbag2_cpp]) *)

Module rosbag2_cpp.

Record rosbag2_introspection_message_t (Message : Type) : Type := {
  message : Message;
  time_stamp : Z;               (* [rcutils_time_point_value_t] *)
  topic_name : string
}.

Arguments message {Message} _.
Arguments time_stamp {Message} _.
Arguments topic_name {Message} _.

(** [introspection_message_set_topic_name(msg, topic_name)] takes a
    [const char *]. *)
Definition introspection_message_set_topic_name {Message : Type}
    (msg : rosbag2_introspection_message_t Message) (topic : string) :
    rosbag2_introspection_message_t Message :=
  {| message := message msg;
     time_stamp := time_stamp msg;
     topic_name := topic |}.

End rosbag2_cpp.

(** [ros::serialization::IStream(data, count)]: the [count] bytes at
    [data]. *)
Definition IStream (data : list byte) (count : Z) : list byte :=
  take (Z.to_nat count) data.

(** ** class RosbagV2Storage *)

(** The members.  [bag_view_of_replayable_messages_] is a pointer, [None]
    when null.  [bag_iterator_] is an iterator of that view, kept as its
    position; dereferencing it reads the view it belongs to. *)
Record RosbagV2Storage : Type := {
  ros_v2_bag_ : rosbag.Bag;
  bag_view_of_replayable_messages_ : option rosbag.View;
  bag_iterator_ : nat
}.

(** The constructor: a fresh, unopened bag and a null view. *)
Definition RosbagV2Storage_new : RosbagV2Storage :=
  {| ros_v2_bag_ := rosbag.empty_Bag;
     bag_view_of_replayable_messages_ := None;
     bag_iterator_ := 0%nat |}.

Section Plugin.

(** The type mapping table of [convert_rosbag_message.hpp], which is not
    part of these sources: [get_1to2_mapping(ros1_type, ros2_type)]
    answers whether the ROS 1 type has a ROS 2 counterpart and, if so,
    stores its name in [ros2_type]. *)
Variable get_1to2_mapping : string -> option string.

(** The body of a generic message and the transcoding functions of the
    table, by ROS 1 type name. *)
Variable Message : Type.
Variable transcode : string -> list byte -> Message -> Message.

Definition skip_notice (connection : rosbag.ConnectionInfo) : string :=
  ("ROS 1 to ROS 2 type mapping is not available for topic '"
     ++ rosbag.topic connection ++ "' which is of type '"
     ++ rosbag.datatype connection
     ++ "'. Skipping messages of this topic when replaying.")%string.

(** The loop of [open] over the connections: the topics to replay and
    the lines it logs. *)
Definition open_loop (connection_info : list rosbag.ConnectionInfo) :
    list string * list string :=
  foldl (fun '(topics_valid_in_ros2, log) connection =>
           match get_1to2_mapping (rosbag.datatype connection) with
           | Some ros2_type_name =>
               if vector_has_already_element topics_valid_in_ros2
                    (rosbag.topic connection)
               then (topics_valid_in_ros2, log)
               else (topics_valid_in_ros2 ++ [rosbag.topic connection], log)
           | None => (topics_valid_in_ros2, log ++ [skip_notice connection])
           end)
        ([], []) connection_info.

Definition topics_valid_in_ros2 (b : rosbag.Bag) : list string :=
  (open_loop (rosbag.getConnections (rosbag.make_View b rosbag.TrueQuery))).1.

Definition open (fs : FileSystem) (uri : string) (flag : IOFlag)
    (this : RosbagV2Storage) : io (outcome RosbagV2Storage) :=
  if decide (flag = READ_WRITE) then
    ([], Throws UnsupportedModeError)
  else
    let '(io_events, opened) := Bag_open fs uri in
    match opened with
    | Returns bag =>
        let bag_view := rosbag.make_View bag rosbag.TrueQuery in
        let '(topics_valid_in_ros2, log) :=
          open_loop (rosbag.getConnections bag_view) in
        let view :=
          rosbag.make_View bag (rosbag.TopicQuery topics_valid_in_ros2) in
        (io_events ++ map LogInfo log,
         Returns {| ros_v2_bag_ := bag;
                    bag_view_of_replayable_messages_ := Some view;
                    bag_iterator_ := rosbag.begin_ view |})
    | Throws e => (io_events, Throws e)
    | Undefined f => (io_events, Undefined f)
    end.

Definition has_next (this : RosbagV2Storage) : outcome bool :=
  match bag_view_of_replayable_messages_ this with
  | None => Undefined NullDereference
  | Some view => Returns (bool_decide (bag_iterator_ this <> rosbag.end_ view))
  end.

Definition read_next (this : RosbagV2Storage) :
    outcome (SerializedBagMessage * RosbagV2Storage) :=
  match bag_view_of_replayable_messages_ this with
  | None => Undefined NullDereference
  | Some view =>
      match rosbag.view_messages view !! bag_iterator_ this with
      | None => Undefined PastTheEnd
      | Some message_instance =>
          let output_stream :=
            RosbagOutputStream.new (rosbag.getDataType message_instance) in
          let output_stream :=
            MessageInstance_write message_instance output_stream in
          Returns
            ({| topic_name := rosbag.getTopic message_instance;
                time_stamp :=
                  int64_of_uint64 (ros.toNSec (rosbag.getTime message_instance));
                serialized_data :=
                  RosbagOutputStream.get_content output_stream |},
             {| ros_v2_bag_ := ros_v2_bag_ this;
                bag_view_of_replayable_messages_ :=
                  bag_view_of_replayable_messages_ this;
                bag_iterator_ := S (bag_iterator_ this) |})
      end
  end.

Definition get_all_topics_and_types_including_ros1_topics
    (this : RosbagV2Storage) : list TopicMetadata :=
  let bag_view := rosbag.make_View (ros_v2_bag_ this) rosbag.TrueQuery in
  foldl (fun topics_with_type connection =>
           let topic_metadata :=
             {| name := rosbag.topic connection;
                type := rosbag.datatype connection;
                serialization_format := "rosbag_v2" |} in
           if vector_has_already_element topics_with_type topic_metadata
           then topics_with_type
           else topics_with_type ++ [topic_metadata])
        [] (rosbag.getConnections bag_view).

Definition get_all_topics_and_types (this : RosbagV2Storage) :
    list TopicMetadata :=
  foldl (fun topics_with_type topic_with_type =>
           match get_1to2_mapping (type topic_with_type) with
           | Some ros2_type_name =>
               topics_with_type ++
                 [{| name := name topic_with_type;
                     type := ros2_type_name;
                     serialization_format :=
                       serialization_format topic_with_type |}]
           | None => topics_with_type
           end)
        [] (get_all_topics_and_types_including_ros1_topics this).

Definition get_storage_identifier : string := IDENTIFIER.

Definition get_bagfile_size (fs : FileSystem) (this : RosbagV2Storage) : io Z :=
  rcutils_get_file_size fs (rosbag.file_name (ros_v2_bag_ this)).

Definition get_relative_file_path (fs : FileSystem) (this : RosbagV2Storage) :
    string :=
  path_filename fs (rosbag.file_name (ros_v2_bag_ this)).

Definition get_topic_information (this : RosbagV2Storage) :
    list TopicInformation :=
  foldl (fun topic_information topic =>
           let view_with_topic_query :=
             rosbag.make_View (ros_v2_bag_ this) (rosbag.TopicQuery [name topic]) in
           topic_information ++
             [{| topic_metadata := topic;
                 message_count := rosbag.size view_with_topic_query |}])
        [] (get_all_topics_and_types this).

(** [get_metadata] is not a [const] member: it is given the object and
    hands it back. *)
Definition get_metadata (fs : FileSystem) (this : RosbagV2Storage) :
    io (BagMetadata * RosbagV2Storage) :=
  let bag_view := rosbag.make_View (ros_v2_bag_ this) rosbag.TrueQuery in
  let '(io_events, size) := get_bagfile_size fs this in
  (io_events,
   ({| version := 2;
       storage_identifier := get_storage_identifier;
       bag_size := size;
       relative_file_paths := [get_relative_file_path fs this];
       duration :=
         int64_of_uint64
           (wrap_uint64 (ros.toNSec (rosbag.getEndTime bag_view)
                         - ros.toNSec (rosbag.getBeginTime bag_view)));
       starting_time :=
         int64_of_uint64 (ros.toNSec (rosbag.getBeginTime bag_view));
       total_message_count := rosbag.size bag_view;
       topics_with_message_count := get_topic_information this |},
    this)).

(** ** class RosbagV2Deserializer *)

(** Modelled from the spec: [convert_1_to_2] is defined in
    [convert_rosbag_message.cpp], which is not part of these sources.  It
    fails with [UnmappedTypeError] for a type without an entry in the
    table; otherwise it runs the entry's transcoding function on the
    payload and populates the body of the passed-in message, nothing
    else. *)
Definition convert_1_to_2 (ros1_type_name : string) (stream : list byte)
    (ros_message : rosbag2_cpp.rosbag2_introspection_message_t Message) :
    outcome (rosbag2_cpp.rosbag2_introspection_message_t Message) :=
  match get_1to2_mapping ros1_type_name with
  | None => Throws UnmappedTypeError
  | Some _ =>
      Returns
        {| rosbag2_cpp.message :=
             transcode ros1_type_name stream (rosbag2_cpp.message ros_message);
           rosbag2_cpp.time_stamp := rosbag2_cpp.time_stamp ros_message;
           rosbag2_cpp.topic_name := rosbag2_cpp.topic_name ros_message |}
  end.

(** The type name and the payload that [deserialize] hands to
    [convert_1_to_2]. *)
Definition split_tagged_buffer (buffer : list byte) :
    outcome (string * list byte) :=
  ros1_data_type ← string_of_char_ptr buffer;
  let buffer_length := Z.of_nat (length buffer) in
  let data_type_zero_terminated_length :=
    wrap_uint64 (Z.of_nat (String.length ros1_data_type) + 1) in
  let stream :=
    IStream (drop (Z.to_nat data_type_zero_terminated_length) buffer)
            (wrap_uint64 (buffer_length - data_type_zero_terminated_length)) in
  mret (ros1_data_type, stream).

Definition deserialize (serialized_message : SerializedBagMessage)
    (ros_message : rosbag2_cpp.rosbag2_introspection_message_t Message) :
    outcome (rosbag2_cpp.rosbag2_introspection_message_t Message) :=
  '(ros1_data_type, stream) ←
    split_tagged_buffer (serialized_data serialized_message);
  ros_message ← convert_1_to_2 ros1_data_type stream ros_message;
  let ros_message :=
    {| rosbag2_cpp.message := rosbag2_cpp.message ros_message;
       rosbag2_cpp.time_stamp := time_stamp serialized_message;
       rosbag2_cpp.topic_name := rosbag2_cpp.topic_name ros_message |} in
  mret (rosbag2_cpp.introspection_message_set_topic_name ros_message
          (c_str (topic_name serialized_message))).

End Plugin.

Arguments convert_1_to_2 get_1to2_mapping {Message} transcode _ _ _.
Arguments deserialize get_1to2_mapping {Message} transcode _ _.

(** ** Reading a log to its end

    The loop of a caller: [read_next] as long as [has_next] answers true.
    [fuel] bounds the number of rounds. *)

Fixpoint read_while_has_next (fuel : nat) (this : RosbagV2Storage) :
    outcome (list SerializedBagMessage * RosbagV2Storage) :=
  match fuel with
  | O => mret ([], this)
  | S fuel =>
      more ← has_next this;
      if (more : bool) then
        '(m, this) ← read_next this;
        '(ms, this) ← read_while_has_next fuel this;
        mret (m :: ms, this)
      else mret ([], this)
  end.

(** ** Notions of the design, in its own words *)

Section Design.

Variable get_1to2_mapping : string -> option string.

(** A channel, a (topic, legacy type) pair, is mapped when its type has an
    entry in the table. *)
Definition mapped (connection : rosbag.ConnectionInfo) : Prop :=
  is_Some (get_1to2_mapping (rosbag.datatype connection)).

#[global] Instance mapped_dec c : Decision (mapped c).
Proof. unfold mapped. apply _. Defined.

(** The records on mapped channels. *)
Definition records_on_mapped_channels (b : rosbag.Bag) :
    list rosbag.MessageInstance :=
  filter (fun m => mapped (rosbag.connection_info_ m)) (rosbag.messages_ b).

(** "First-seen wins": the first connection enumerated for a topic decides
    whether the topic is replayed. *)
Definition first_seen (connection_info : list rosbag.ConnectionInfo)
    (t : string) : option rosbag.ConnectionInfo :=
  List.find (fun c => bool_decide (rosbag.topic c = t)) connection_info.

Definition included_by_first_seen
    (connection_info : list rosbag.ConnectionInfo) (t : string) : Prop :=
  exists c, first_seen connection_info t = Some c /\ mapped c.

(** The legacy format is assumed to assign one type per topic. *)
Definition one_type_per_topic (b : rosbag.Bag) : Prop :=
  forall c c', c ∈ rosbag.connections_ b -> c' ∈ rosbag.connections_ b ->
    rosbag.topic c = rosbag.topic c' -> rosbag.datatype c = rosbag.datatype c'.

(** The weaker assumption that the connections of a topic are all mapped
    or all unmapped. *)
Definition mapping_agrees_per_topic (b : rosbag.Bag) : Prop :=
  forall c c', c ∈ rosbag.connections_ b -> c' ∈ rosbag.connections_ b ->
    rosbag.topic c = rosbag.topic c' -> mapped c -> mapped c'.

(** The entry of [get_all_topics_and_types] for an entry of the unfiltered
    list. *)
Definition host_entry (legacy : TopicMetadata) : option TopicMetadata :=
  ros2_type_name ← get_1to2_mapping (type legacy);
  Some {| name := name legacy;
          type := ros2_type_name;
          serialization_format := serialization_format legacy |}.

End Design.

(** The instances on which [open] has succeeded, and what the calls of
    the interface make of them. *)
Inductive Opened (get_1to2_mapping : string -> option string) :
    RosbagV2Storage -> Prop :=
  | Opened_open fs uri flag this events this' :
      open get_1to2_mapping fs uri flag this = (events, Returns this') ->
      Opened get_1to2_mapping this'
  | Opened_read_next this m this' :
      Opened get_1to2_mapping this ->
      read_next this = Returns (m, this') ->
      Opened get_1to2_mapping this'
  | Opened_get_metadata fs this events metadata this' :
      Opened get_1to2_mapping this ->
      get_metadata get_1to2_mapping fs this = (events, (metadata, this')) ->
      Opened get_1to2_mapping this'.

(** The unfiltered entry of a connection. *)
Definition legacy_entry (connection : rosbag.ConnectionInfo) : TopicMetadata :=
  {| name := rosbag.topic connection;
     type := rosbag.datatype connection;
     serialization_format := "rosbag_v2" |}.

(** The tagged buffer of a record. *)
Definition tagged_buffer (m : rosbag.MessageInstance) : list byte :=
  bytes (rosbag.getDataType m) ++ [NUL] ++ rosbag.data m.

(** What [read_next] hands out for a record. *)
Definition serialized (m : rosbag.MessageInstance) : SerializedBagMessage :=
  {| topic_name := rosbag.getTopic m;
     time_stamp := int64_of_uint64 (ros.toNSec (rosbag.getTime m));
     serialized_data := tagged_buffer m |}.

(** The adapter with its cursor moved to position [i]. *)
Definition at_position (this : RosbagV2Storage) (i : nat) : RosbagV2Storage :=
  {| ros_v2_bag_ := ros_v2_bag_ this;
     bag_view_of_replayable_messages_ := bag_view_of_replayable_messages_ this;
     bag_iterator_ := i |}.

(** ** Sample logs

    A table with two entries, and small logs over it. *)

Module Sample.

Definition mapping (ros1_type : string) : option string :=
  if decide (ros1_type = "std_msgs/String") then Some "std_msgs/msg/String"
  else if decide (ros1_type = "std_msgs/Int32") then Some "std_msgs/msg/Int32"
  else None.

(** Transcoding that keeps the payload bytes as the body. *)
Definition keep_bytes (ros1_type : string) (payload body : list byte) :
    list byte := payload.

Definition chatter : rosbag.ConnectionInfo :=
  {| rosbag.topic := "/chatter"; rosbag.datatype := "std_msgs/String" |}.
Definition chatter_int : rosbag.ConnectionInfo :=
  {| rosbag.topic := "/chatter"; rosbag.datatype := "std_msgs/Int32" |}.
Definition chatter_custom : rosbag.ConnectionInfo :=
  {| rosbag.topic := "/chatter"; rosbag.datatype := "my_pkg/Custom" |}.
Definition unmapped_topic : rosbag.ConnectionInfo :=
  {| rosbag.topic := "/unmapped_topic"; rosbag.datatype := "my_pkg/Custom" |}.

Definition record (c : rosbag.ConnectionInfo) (s : Z) (payload : list byte) :
    rosbag.MessageInstance :=
  {| rosbag.connection_info_ := c;
     rosbag.time := {| ros.sec := s; ros.nsec := 0 |};
     rosbag.data := payload |}.

(** One mapped and one unmapped topic. *)
Definition plain_log :
    list rosbag.ConnectionInfo * list rosbag.MessageInstance :=
  ([chatter; unmapped_topic],
   [record chatter 100 [x05; x00; x00; x00; x68; x65; x6c; x6c; x6f];
    record unmapped_topic 150 [x01];
    record chatter 200 [x00; x00; x00; x00]]).

(** One topic with a mapped and an unmapped connection, the mapped one
    enumerated first. *)
Definition mixed_log :
    list rosbag.ConnectionInfo * list rosbag.MessageInstance :=
  ([chatter; chatter_custom],
   [record chatter_custom 100 [x2a];
    record chatter 200 [x00; x00; x00; x00];
    record chatter_custom 300 [x2b]]).

(** The same topic, the unmapped connection enumerated first. *)
Definition unmapped_first_log :
    list rosbag.ConnectionInfo * list rosbag.MessageInstance :=
  ([chatter_custom; chatter],
   [record chatter 100 [x00; x00; x00; x00]]).

(** One topic with two mapped types. *)
Definition two_types_log :
    list rosbag.ConnectionInfo * list rosbag.MessageInstance :=
  ([chatter; chatter_int],
   [record chatter 100 [x00; x00; x00; x00];
    record chatter_int 200 [x07; x00; x00; x00]]).

Definition fs : FileSystem :=
  {| contents := fun path =>
       if decide (path = "plain.bag") then Some plain_log
       else if decide (path = "mixed.bag") then Some mixed_log
       else if decide (path = "unmapped_first.bag") then Some unmapped_first_log
       else if decide (path = "two_types.bag") then Some two_types_log
       else if decide (path = "empty.bag") then Some ([], [])
       else None;
     file_size := fun path => 4096;
     path_filename := fun path => path |}.

Definition bag_of (path : string)
    (log : list rosbag.ConnectionInfo * list rosbag.MessageInstance) :
    rosbag.Bag :=
  {| rosbag.file_name := path;
     rosbag.connections_ := log.1;
     rosbag.messages_ := log.2 |}.

(** The adapter after [open(path, READ_ONLY)] on a fresh instance; the
    fresh instance again when [open] fails. *)
Definition opened (path : string) : RosbagV2Storage :=
  match (open mapping fs path READ_ONLY RosbagV2Storage_new).2 with
  | Returns this => this
  | _ => RosbagV2Storage_new
  end.

(** The adapter after its caller has read the log at [path] to the
    end. *)
Definition exhausted (path : string) : RosbagV2Storage :=
  match read_while_has_next 16 (opened path) with
  | Returns (_, this) => this
  | _ => RosbagV2Storage_new
  end.

Definition blank : rosbag2_cpp.rosbag2_introspection_message_t (list byte) :=
  {| rosbag2_cpp.message := [];
     rosbag2_cpp.time_stamp := 0;
     rosbag2_cpp.topic_name := "" |}.

End Sample.

(** Whether a topic has a connection with a mapped type. *)
Definition topic_has_mapped_connection
    (get_1to2_mapping : string -> option string) (b : rosbag.Bag)
    (t : string) : Prop :=
  Exists (fun c => rosbag.topic c = t /\ mapped get_1to2_mapping c)
         (rosbag.connections_ b).

#[global] Instance topic_has_mapped_connection_dec get_1to2_mapping b t :
  Decision (topic_has_mapped_connection get_1to2_mapping b t).
Proof. unfold topic_has_mapped_connection. apply _. Defined.

(** ** Further sample logs *)

Module MoreSamples.

(** A topic with a NUL inside: ["/a"], NUL, ["b"]. *)
Definition nul_topic : string := "/a" ++ String "000"%char "b".

Definition nul_connection : rosbag.ConnectionInfo :=
  {| rosbag.topic := nul_topic; rosbag.datatype := "std_msgs/String" |}.

Definition nul_record : rosbag.MessageInstance :=
  Sample.record nul_connection 100 [x00; x00; x00; x00].

(** Two unmapped connections with three records. *)
Definition unmapped_only_log :
    list rosbag.ConnectionInfo * list rosbag.MessageInstance :=
  ([Sample.unmapped_topic; Sample.chatter_custom],
   [Sample.record Sample.unmapped_topic 100 [x01];
    Sample.record Sample.chatter_custom 200 [x2a];
    Sample.record Sample.unmapped_topic 300 [x02]]).

Definition fs : FileSystem :=
  {| contents := fun path =>
       if decide (path = "nul_topic.bag") then Some ([nul_connection], [nul_record])
       else if decide (path = "unmapped_only.bag") then Some unmapped_only_log
       else None;
     file_size := fun path => 4096;
     path_filename := fun path => path |}.

(** The adapter after [open(path, READ_ONLY)] on a fresh instance; the
    fresh instance again when [open] fails. *)
Definition opened (path : string) : RosbagV2Storage :=
  match (open Sample.mapping fs path READ_ONLY RosbagV2Storage_new).2 with
  | Returns this => this
  | _ => RosbagV2Storage_new
  end.

End MoreSamples.

(** A time as [rosbag] stores it: normalised, and not before
    [ros::TIME_MIN]. *)
Definition stored_time (t : ros.Time) : Prop :=
  uint32 (ros.sec t) /\ 0 <= ros.nsec t < 1000000000 /\
  (0 < ros.sec t \/ 0 < ros.nsec t).

#[global] Instance stored_time_dec t : Decision (stored_time t).
Proof. unfold stored_time, uint32. apply _. Defined.

(** The nanoseconds of a time, as an unbounded integer. *)
Definition nanoseconds (t : ros.Time) : Z :=
  ros.sec t * 1000000000 + ros.nsec t.

(** Membership in a vector after a [push_back]. *)
Ltac elem_of_push_back :=
  setoid_rewrite elem_of_app; setoid_rewrite list_elem_of_singleton.

(** * Properties *)

(** ** Bytes and C strings *)

Lemma length_string_of_list_byte (l : list byte) :
  String.length (string_of_list_byte l) = length l.
Proof.
  induction l as [|b l IH]; [reflexivity|].
  change (string_of_list_byte (b :: l))
    with (String (ascii_of_byte b) (string_of_list_byte l)).
  simpl. by rewrite IH.
Qed.

Lemma length_bytes (s : string) : length (bytes s) = String.length s.
Proof.
  rewrite <- (string_of_list_byte_of_string s) at 2.
  by rewrite length_string_of_list_byte.
Qed.

Lemma until_nul_terminated (l rest : list byte) :
  NUL ∉ l -> until_nul (l ++ NUL :: rest) = l.
Proof.
  induction l as [|b l IH]; intros Hl.
  - cbn [app until_nul]. by destruct (decide (NUL = NUL)).
  - apply not_elem_of_cons in Hl as [Hb Hl].
    cbn [app until_nul]. destruct (decide (b = NUL)); [congruence|].
    by rewrite IH.
Qed.

Lemma until_nul_nul_free (l : list byte) : NUL ∉ l -> until_nul l = l.
Proof.
  induction l as [|b l IH]; intros Hl; [done|].
  apply not_elem_of_cons in Hl as [Hb Hl].
  cbn [until_nul]. destruct (decide (b = NUL)); [congruence|].
  by rewrite IH.
Qed.

Lemma until_nul_split (l : list byte) :
  NUL ∈ l -> l = until_nul l ++ NUL :: drop (S (length (until_nul l))) l.
Proof.
  induction l as [|b l IH]; intros Hl; [by apply elem_of_nil in Hl|].
  cbn [until_nul]. destruct (decide (b = NUL)) as [->|Hb]; [done|].
  apply elem_of_cons in Hl as [Heq|Hin]; [congruence|].
  cbn [app length drop]. f_equal. by apply IH.
Qed.

(** Inside a buffer that holds a NUL, the C string ends before the end. *)
Lemma until_nul_length_lt (l : list byte) :
  NUL ∈ l -> (length (until_nul l) < length l)%nat.
Proof.
  induction l as [|b l IH]; intros Hl; [by apply elem_of_nil in Hl|].
  simpl. destruct (decide (b = NUL)) as [->|Hb]; simpl; [lia|].
  apply elem_of_cons in Hl as [Heq|Hin]; [congruence|].
  specialize (IH Hin). lia.
Qed.

Lemma c_str_nul_free (s : string) : nul_free s -> c_str s = s.
Proof.
  intros Hs. unfold c_str. rewrite until_nul_nul_free by exact Hs.
  apply string_of_list_byte_of_string.
Qed.

Lemma string_of_char_ptr_tagged (s : string) (rest : list byte) :
  nul_free s -> string_of_char_ptr (bytes s ++ [NUL] ++ rest) = Returns s.
Proof.
  intros Hs. unfold string_of_char_ptr.
  rewrite decide_True by (apply elem_of_app; right; apply elem_of_cons; by left).
  simpl. rewrite until_nul_terminated by exact Hs.
  f_equal. apply string_of_list_byte_of_string.
Qed.

(** ** Time stamps *)

Lemma toNSec_exact (t : ros.Time) :
  ros.Time_ok t ->
  int64_of_uint64 (ros.toNSec t) = ros.sec t * 1000000000 + ros.nsec t.
Proof.
  intros [Hs Hn]. unfold uint32 in *.
  unfold int64_of_uint64, ros.toNSec, wrap_uint64.
  rewrite Z.mod_small by lia.
  destruct (Z.ltb_spec (ros.sec t * 1000000000 + ros.nsec t) (2 ^ 63)); lia.
Qed.

(** ** Views *)

Lemma filter_TrueQuery {A : Type} (f : A -> rosbag.ConnectionInfo) (l : list A) :
  filter (fun x => rosbag.TrueQuery (f x)) l = l.
Proof.
  induction l as [|x l IH]; [done|].
  rewrite filter_cons_True by done. by rewrite IH.
Qed.

Lemma getConnections_unrestricted (b : rosbag.Bag) :
  rosbag.getConnections (rosbag.make_View b rosbag.TrueQuery)
  = rosbag.connections_ b.
Proof. apply (filter_TrueQuery id). Qed.

Lemma view_messages_unrestricted (b : rosbag.Bag) :
  rosbag.view_messages (rosbag.make_View b rosbag.TrueQuery)
  = rosbag.messages_ b.
Proof. apply (filter_TrueQuery rosbag.connection_info_). Qed.

Lemma elem_of_view_messages (b : rosbag.Bag) (topics : list string)
    (m : rosbag.MessageInstance) :
  m ∈ rosbag.view_messages (rosbag.make_View b (rosbag.TopicQuery topics))
  <-> m ∈ rosbag.messages_ b /\ rosbag.getTopic m ∈ topics.
Proof.
  unfold rosbag.make_View, rosbag.TopicQuery, rosbag.getTopic. simpl.
  rewrite list_elem_of_filter, bool_decide_spec. tauto.
Qed.

(** ** Loops that collect without repetition *)

Section Loops.

Variable get_1to2_mapping : string -> option string.

Implicit Types (l : list rosbag.ConnectionInfo) (c : rosbag.ConnectionInfo).

Lemma open_loop_snoc l c :
  open_loop get_1to2_mapping (l ++ [c]) =
    match get_1to2_mapping (rosbag.datatype c) with
    | Some _ =>
        if vector_has_already_element (open_loop get_1to2_mapping l).1 (rosbag.topic c)
        then open_loop get_1to2_mapping l
        else ((open_loop get_1to2_mapping l).1 ++ [rosbag.topic c], (open_loop get_1to2_mapping l).2)
    | None => ((open_loop get_1to2_mapping l).1, (open_loop get_1to2_mapping l).2 ++ [skip_notice c])
    end.
Proof.
  unfold open_loop at 1. rewrite foldl_snoc.
  fold (open_loop get_1to2_mapping l). destruct (open_loop get_1to2_mapping l) as [topics log]. simpl.
  by destruct (get_1to2_mapping (rosbag.datatype c)).
Qed.

Lemma open_loop_elem (l : list rosbag.ConnectionInfo) (t : string) :
  t ∈ (open_loop get_1to2_mapping l).1 <->
  exists c, c ∈ l /\ rosbag.topic c = t /\ mapped get_1to2_mapping c.
Proof.
  induction l as [|c l IH] using rev_ind.
  - simpl. split; [intros H; by apply elem_of_nil in H|].
    intros (c & Hc & _). by apply elem_of_nil in Hc.
  - rewrite open_loop_snoc. unfold mapped in *.
    elem_of_push_back.
    destruct (get_1to2_mapping (rosbag.datatype c)) as [h|] eqn:Hmap.
    + unfold vector_has_already_element. case_bool_decide as Hin; simpl.
      * rewrite IH. split.
        -- intros (c' & ? & ? & ?). eauto.
        -- intros (c' & [Hc'| ->] & Ht & Hm); [eauto|].
           subst t. by apply IH.
      * rewrite elem_of_app, list_elem_of_singleton, IH. split.
        -- intros [(c' & ? & ? & ?)| ->]; [eauto|].
           exists c. rewrite Hmap. eauto.
        -- intros (c' & [Hc'| ->] & Ht & Hm); [left; eauto|by right].
    + simpl. rewrite IH. split.
      * intros (c' & ? & ? & ?). eauto.
      * intros (c' & [Hc'| ->] & Ht & Hm); [eauto|].
        rewrite Hmap in Hm. by destruct Hm.
Qed.

Lemma open_loop_NoDup (l : list rosbag.ConnectionInfo) :
  NoDup (open_loop get_1to2_mapping l).1.
Proof.
  induction l as [|c l IH] using rev_ind; [constructor|].
  rewrite open_loop_snoc.
  destruct (get_1to2_mapping (rosbag.datatype c)); [|done].
  unfold vector_has_already_element. case_bool_decide as Hin; [done|].
  simpl. apply NoDup_app. split_and!; [done| |apply NoDup_singleton].
  intros x Hx ->%list_elem_of_singleton. done.
Qed.

Lemma open_loop_log (l : list rosbag.ConnectionInfo) :
  (open_loop get_1to2_mapping l).2 = skip_notice <$> filter (fun c => ~ mapped get_1to2_mapping c) l.
Proof.
  induction l as [|c l IH] using rev_ind; [done|].
  rewrite open_loop_snoc, filter_app, fmap_app, <- IH.
  unfold mapped.
  destruct (get_1to2_mapping (rosbag.datatype c)) as [h|] eqn:Hmap.
  - rewrite filter_cons_False, filter_nil.
    + rewrite app_nil_r. by destruct (vector_has_already_element _ _).
    + rewrite Hmap. intros Hn. apply Hn. eauto.
  - rewrite filter_cons_True, filter_nil; [done|].
    rewrite Hmap. by intros [? ?].
Qed.

(** The first loop of [get_all_topics_and_types]: one entry per distinct
    value, in the order of first appearance. *)
Lemma collect_new_spec {A B : Type} `{EqDecision B} (f : A -> B) (l : list A) :
  NoDup (foldl (fun vector x =>
                  if vector_has_already_element vector (f x) then vector
                  else vector ++ [f x]) [] l) /\
  forall y,
    y ∈ foldl (fun vector x =>
                 if vector_has_already_element vector (f x) then vector
                 else vector ++ [f x]) [] l
    <-> exists x, x ∈ l /\ y = f x.
Proof.
  induction l as [|x l [IHnd IHel]] using rev_ind.
  - split; [constructor|]. intros y. simpl.
    split; [intros Hy; by apply elem_of_nil in Hy|].
    intros (x & Hx & _). by apply elem_of_nil in Hx.
  - rewrite foldl_snoc.
    set (r := foldl _ [] l) in *.
    unfold vector_has_already_element. case_bool_decide as Hin.
    + split; [done|]. intros y. rewrite IHel.
      elem_of_push_back.
      split.
      * intros (x' & ? & ?). eauto.
      * intros (x' & [Hx'| ->] & ->); [eauto|by apply IHel].
    + split.
      * apply NoDup_app. split_and!; [done| |apply NoDup_singleton].
        intros y Hy ->%list_elem_of_singleton. done.
      * intros y. rewrite elem_of_app, list_elem_of_singleton, IHel.
        elem_of_push_back.
        split.
        -- intros [(x' & ? & ?)| ->]; eauto.
        -- intros (x' & [Hx'| ->] & ->); [left; eauto|by right].
Qed.

(** The second loop of [get_all_topics_and_types] keeps the mapped
    entries, in order, with the host type in place of the legacy one. *)
Lemma keep_mapped_omap (l : list TopicMetadata) :
  foldl (fun topics_with_type topic_with_type =>
           match get_1to2_mapping (type topic_with_type) with
           | Some ros2_type_name =>
               topics_with_type ++
                 [{| name := name topic_with_type;
                     type := ros2_type_name;
                     serialization_format :=
                       serialization_format topic_with_type |}]
           | None => topics_with_type
           end) [] l
  = omap (host_entry get_1to2_mapping) l.
Proof.
  induction l as [|e l IH] using rev_ind; [done|].
  rewrite foldl_snoc, omap_app, IH.
  change (omap (host_entry get_1to2_mapping) [e])
    with (match host_entry get_1to2_mapping e with
          | Some y => [y]
          | None => []
          end).
  generalize (omap (host_entry get_1to2_mapping) l). intros done_so_far.
  unfold host_entry.
  destruct (get_1to2_mapping (type e)); simpl; [done|by rewrite app_nil_r].
Qed.

End Loops.

(** ** The operations of the adapter *)

Lemma open_Returns get_1to2_mapping fs uri flag this events this' :
  open get_1to2_mapping fs uri flag this = (events, Returns this') ->
  flag = READ_ONLY /\
  exists conns msgs,
    contents fs uri = Some (conns, msgs) /\
    let bag := {| rosbag.file_name := uri;
                  rosbag.connections_ := conns;
                  rosbag.messages_ := msgs |} in
    this' =
      {| ros_v2_bag_ := bag;
         bag_view_of_replayable_messages_ :=
           Some (rosbag.make_View bag
                   (rosbag.TopicQuery (topics_valid_in_ros2 get_1to2_mapping bag)));
         bag_iterator_ := 0%nat |}.
Proof.
  unfold open. destruct (decide (flag = READ_WRITE)) as [|Hflag]; [done|].
  unfold Bag_open. destruct (contents fs uri) as [[conns msgs]|]; [|done].
  unfold topics_valid_in_ros2.
  destruct (open_loop _ _) as [topics log] eqn:Hloop.
  intros Heq. injection Heq as _ <-. split; [destruct flag; congruence|].
  exists conns, msgs. by rewrite Hloop.
Qed.

Lemma read_next_at this view mi :
  bag_view_of_replayable_messages_ this = Some view ->
  rosbag.view_messages view !! bag_iterator_ this = Some mi ->
  read_next this = Returns (serialized mi, at_position this (S (bag_iterator_ this))).
Proof.
  intros Hview Hmi. unfold read_next. rewrite Hview, Hmi.
  unfold serialized, tagged_buffer, MessageInstance_write,
    RosbagOutputStream.get_content, RosbagOutputStream.write,
    RosbagOutputStream.new.
  unfold at_position. by rewrite <- app_assoc, Hview.
Qed.

Lemma has_next_at this view :
  bag_view_of_replayable_messages_ this = Some view ->
  has_next this =
    Returns (bool_decide (bag_iterator_ this <> length (rosbag.view_messages view))).
Proof. intros Hview. unfold has_next. by rewrite Hview. Qed.

(** Enough rounds read every record from the cursor on, in the order of the
    view, and leave the cursor at the end. *)
Lemma read_while_has_next_all fuel this view :
  bag_view_of_replayable_messages_ this = Some view ->
  (bag_iterator_ this <= length (rosbag.view_messages view))%nat ->
  (length (rosbag.view_messages view) - bag_iterator_ this <= fuel)%nat ->
  read_while_has_next fuel this =
    Returns (serialized <$> drop (bag_iterator_ this) (rosbag.view_messages view),
             at_position this (length (rosbag.view_messages view))).
Proof.
  revert this. induction fuel as [|fuel IH]; intros this Hview Hle Hfuel.
  - assert (bag_iterator_ this = length (rosbag.view_messages view)) as Hend by lia.
    rewrite Hend, drop_all. destruct this; simpl in *. by subst.
  - cbn [read_while_has_next]. rewrite (has_next_at this view Hview).
    cbn [mbind outcome_bind]. case_bool_decide as Hmore.
    + destruct (rosbag.view_messages view !! bag_iterator_ this) as [mi|] eqn:Hmi.
      2: { apply lookup_ge_None in Hmi. lia. }
      rewrite (read_next_at this view mi Hview Hmi). cbn [mbind outcome_bind].
      rewrite (IH (at_position this (S (bag_iterator_ this)))); simpl; [|done|lia|lia].
      rewrite (drop_S _ _ _ Hmi). done.
    + assert (bag_iterator_ this = length (rosbag.view_messages view)) as Hend
        by (destruct (decide (bag_iterator_ this = length (rosbag.view_messages view))); done).
      rewrite Hend, drop_all. destruct this; simpl in *. by subst.
Qed.

(** ** The tagged buffer *)

(** Whatever the buffer, [deserialize] cuts it at its first NUL: the type
    name is what stands before it, the payload the
    [buffer_length - (type_name_length + 1)] bytes after it. *)
Lemma split_tagged_buffer_at_first_nul (buffer : list byte) :
  NUL ∈ buffer ->
  Z.of_nat (length buffer) < 2 ^ 64 ->
  exists type_name payload,
    split_tagged_buffer buffer = Returns (type_name, payload) /\
    bytes type_name = until_nul buffer /\
    buffer = bytes type_name ++ [NUL] ++ payload /\
    Z.of_nat (length payload)
      = Z.of_nat (length buffer) - (Z.of_nat (String.length type_name) + 1).
Proof.
  intros Hnul Hsize.
  pose proof (until_nul_length_lt buffer Hnul) as Hlt.
  pose proof (until_nul_split buffer Hnul) as Hsplit.
  set (n := length (until_nul buffer)) in *.
  exists (string_of_list_byte (until_nul buffer)), (drop (S n) buffer).
  assert (bytes (string_of_list_byte (until_nul buffer)) = until_nul buffer)
    as Hbytes by apply list_byte_of_string_of_list_byte.
  split_and!.
  - unfold split_tagged_buffer, string_of_char_ptr.
    rewrite decide_True by done. cbn [mbind outcome_bind mret outcome_ret].
    rewrite length_string_of_list_byte. fold n.
    unfold wrap_uint64, IStream.
    rewrite (Z.mod_small (Z.of_nat n + 1)) by lia.
    replace (Z.to_nat (Z.of_nat n + 1)) with (S n) by lia.
    rewrite Z.mod_small by lia.
    rewrite take_ge; [done|]. rewrite length_drop. lia.
  - done.
  - by rewrite Hbytes.
  - rewrite length_string_of_list_byte, length_drop. fold n. lia.
Qed.

Lemma split_tagged_buffer_type (s : string) (payload : list byte) :
  nul_free s ->
  exists stream,
    split_tagged_buffer (bytes s ++ [NUL] ++ payload) = Returns (s, stream).
Proof.
  intros Hs. unfold split_tagged_buffer.
  rewrite string_of_char_ptr_tagged by exact Hs. eauto.
Qed.

Lemma split_tagged_buffer_tagged (s : string) (payload : list byte) :
  nul_free s ->
  Z.of_nat (length (bytes s ++ [NUL] ++ payload)) < 2 ^ 64 ->
  split_tagged_buffer (bytes s ++ [NUL] ++ payload) = Returns (s, payload).
Proof.
  intros Hs Hsize. unfold split_tagged_buffer.
  rewrite string_of_char_ptr_tagged by exact Hs. cbn [mbind outcome_bind mret outcome_ret].
  rewrite !length_app, length_bytes in *. cbn [length] in *.
  unfold wrap_uint64, IStream.
  rewrite (Z.mod_small (Z.of_nat (String.length s) + 1)) by lia.
  replace (Z.to_nat (Z.of_nat (String.length s) + 1))
    with (length (bytes s ++ [NUL]))
    by (rewrite length_app, length_bytes; simpl; lia).
  rewrite (app_assoc (bytes s) [NUL] payload), drop_app_length.
  rewrite Z.mod_small by lia.
  rewrite take_ge by lia. done.
Qed.

(** * The claims *)

(** ** C1: the wire format of the tagged buffer *)

(** C1. For the record under the cursor, [read_next] produces the buffer
    [type name][0x00][payload].  [deserialize] recovers the type name as the
    bytes before the first 0x00 and hands exactly the remaining
    [total_buffer_length - (type_name_length + 1)] bytes, which start right
    after the terminator, to the transcoding function.  For a type name that
    is a C string (it holds no NUL) these are the record's type name and its
    stored payload.  The buffer length fits a [size_t]. *)
Theorem tagged_buffer_wire_format
    (get_1to2_mapping : string -> option string) (Message : Type)
    (transcode : string -> list byte -> Message -> Message)
    (this : RosbagV2Storage) (view : rosbag.View) (mi : rosbag.MessageInstance)
    (ros_message : rosbag2_cpp.rosbag2_introspection_message_t Message) :
  bag_view_of_replayable_messages_ this = Some view ->
  rosbag.view_messages view !! bag_iterator_ this = Some mi ->
  Z.of_nat (length (tagged_buffer mi)) < 2 ^ 64 ->
  exists m this' type_name payload,
    read_next this = Returns (m, this') /\
    serialized_data m = bytes (rosbag.getDataType mi) ++ [NUL] ++ rosbag.data mi /\
    split_tagged_buffer (serialized_data m) = Returns (type_name, payload) /\
    bytes type_name = until_nul (serialized_data m) /\
    serialized_data m = bytes type_name ++ [NUL] ++ payload /\
    Z.of_nat (length payload)
      = Z.of_nat (length (serialized_data m))
        - (Z.of_nat (String.length type_name) + 1) /\
    deserialize get_1to2_mapping transcode m ros_message
      = match get_1to2_mapping type_name with
        | Some _ =>
            Returns
              {| rosbag2_cpp.message :=
                   transcode type_name payload (rosbag2_cpp.message ros_message);
                 rosbag2_cpp.time_stamp := time_stamp m;
                 rosbag2_cpp.topic_name := c_str (topic_name m) |}
        | None => Throws UnmappedTypeError
        end /\
    (nul_free (rosbag.getDataType mi) ->
     type_name = rosbag.getDataType mi /\ payload = rosbag.data mi).
Proof.
  intros Hview Hmi Hsize.
  assert (NUL ∈ tagged_buffer mi) as Hnul.
  { unfold tagged_buffer. rewrite !elem_of_app, list_elem_of_singleton. auto. }
  destruct (split_tagged_buffer_at_first_nul (tagged_buffer mi) Hnul Hsize)
    as (type_name & payload & Hsplit & Hname & Hlayout & Hlength).
  exists (serialized mi), (at_position this (S (bag_iterator_ this))),
    type_name, payload.
  change (serialized_data (serialized mi)) with (tagged_buffer mi).
  split_and!; try done.
  - by apply read_next_at with view.
  - unfold deserialize.
    change (serialized_data (serialized mi)) with (tagged_buffer mi).
    rewrite Hsplit. cbn [mbind outcome_bind]. unfold convert_1_to_2.
    by destruct (get_1to2_mapping type_name).
  - intros Hfree. unfold tagged_buffer in Hsplit, Hsize.
    rewrite split_tagged_buffer_tagged in Hsplit by done.
    by injection Hsplit as <- <-.
Qed.

(** ** C3: time stamp and topic survive reading and transcoding *)

(** C3, as stated, fails: the sample record on the mapped topic ["/a"],
    NUL, ["b"] is read and transcoded without error, yet the topic of the
    generic message is not the topic of the record: it is ["/a"]. *)
Lemma topic_with_nul_is_cut :
  exists m this' object,
    rosbag.view_messages
      (rosbag.make_View (ros_v2_bag_ (MoreSamples.opened "nul_topic.bag"))
         (rosbag.TopicQuery [MoreSamples.nul_topic]))
      !! bag_iterator_ (MoreSamples.opened "nul_topic.bag")
    = Some MoreSamples.nul_record /\
    mapped Sample.mapping (rosbag.connection_info_ MoreSamples.nul_record) /\
    read_next (MoreSamples.opened "nul_topic.bag") = Returns (m, this') /\
    deserialize Sample.mapping Sample.keep_bytes m Sample.blank = Returns object /\
    rosbag2_cpp.topic_name object = "/a" /\
    rosbag2_cpp.topic_name object <> rosbag.getTopic MoreSamples.nul_record.
Proof.
  eexists _, _, _. split_and!; try reflexivity.
  - by eexists.
  - discriminate.
Qed.

(** C3, amended. For a record on a mapped channel whose type name is a C
    string, [read_next] followed by [deserialize] yields a generic message
    whose time stamp is the record's time in nanoseconds, exactly, and whose
    topic name is the record's topic read as a C string, that is up to its
    first NUL: [read_next] keeps the topic as it is and [deserialize] hands
    on its [c_str()].  The topic name is the record's topic whenever that
    holds no NUL.  The time fields are [uint32_t]. *)
Theorem read_then_deserialize_keeps_time_and_c_string_topic
    (get_1to2_mapping : string -> option string) (Message : Type)
    (transcode : string -> list byte -> Message -> Message)
    (this : RosbagV2Storage) (view : rosbag.View) (mi : rosbag.MessageInstance)
    (ros_message : rosbag2_cpp.rosbag2_introspection_message_t Message) :
  bag_view_of_replayable_messages_ this = Some view ->
  rosbag.view_messages view !! bag_iterator_ this = Some mi ->
  mapped get_1to2_mapping (rosbag.connection_info_ mi) ->
  ros.Time_ok (rosbag.getTime mi) ->
  nul_free (rosbag.getDataType mi) ->
  exists m this' object,
    read_next this = Returns (m, this') /\
    topic_name m = rosbag.getTopic mi /\
    deserialize get_1to2_mapping transcode m ros_message = Returns object /\
    rosbag2_cpp.time_stamp object
      = ros.sec (rosbag.getTime mi) * 1000000000 + ros.nsec (rosbag.getTime mi) /\
    rosbag2_cpp.topic_name object = c_str (rosbag.getTopic mi) /\
    bytes (rosbag2_cpp.topic_name object) = until_nul (bytes (rosbag.getTopic mi)) /\
    (nul_free (rosbag.getTopic mi) ->
     rosbag2_cpp.topic_name object = rosbag.getTopic mi).
Proof.
  intros Hview Hmi [host Hmapped] Htime Htype.
  destruct (split_tagged_buffer_type (rosbag.getDataType mi) (rosbag.data mi) Htype)
    as [stream Hsplit].
  eexists (serialized mi), (at_position this (S (bag_iterator_ this))), _.
  split; [by apply read_next_at with view|].
  split; [reflexivity|].
  split.
  - unfold deserialize.
    change (serialized_data (serialized mi))
      with (bytes (rosbag.getDataType mi) ++ [NUL] ++ rosbag.data mi).
    rewrite Hsplit. cbn [mbind outcome_bind]. unfold convert_1_to_2.
    unfold rosbag.getDataType. rewrite Hmapped. reflexivity.
  - cbn. split_and!.
    + by apply toNSec_exact.
    + reflexivity.
    + unfold c_str, bytes. apply list_byte_of_string_of_list_byte.
    + apply c_str_nul_free.
Qed.

(** ** C6: write access is refused before the file is touched *)

(** C6. For every uri and every file system, also one without a file at
    [uri], [open(uri, READ_WRITE)] fails with [UnsupportedModeError] and has
    made no file-system call: the failure is never [OpenError]. *)
Theorem open_read_write_refused_before_io
    (get_1to2_mapping : string -> option string) (fs : FileSystem)
    (uri : string) (this : RosbagV2Storage) :
  let attempt := open get_1to2_mapping fs uri READ_WRITE this in
  attempt.2 = Throws UnsupportedModeError /\
  attempt.2 <> Throws OpenError /\
  attempt.1 = [] /\
  forall fs', open get_1to2_mapping fs' uri READ_WRITE this = attempt.
Proof.
  intros attempt. subst attempt. unfold open.
  destruct (decide (READ_WRITE = READ_WRITE)) as [_|Hne]; [|by destruct Hne].
  split_and!; [reflexivity|discriminate|reflexivity|].
  intros fs'. by destruct (decide (READ_WRITE = READ_WRITE)).
Qed.

(** Read-only access to a missing file touches the file and fails with
    [OpenError]. *)
Lemma open_missing_file get_1to2_mapping fs uri this :
  contents fs uri = None ->
  open get_1to2_mapping fs uri READ_ONLY this = ([OpenFile uri], Throws OpenError).
Proof. intros Hmissing. unfold open, Bag_open. simpl. by rewrite Hmissing. Qed.

(** ** C7: [read_next] at the end of the view *)

(** C7, as stated, fails: at the end of the sample log [has_next] answers
    false, yet [read_next] does not fail with [EndOfLogError]. *)
Lemma read_next_at_end_is_not_EndOfLogError :
  ~ (has_next (Sample.exhausted "plain.bag") = Returns false ->
     read_next (Sample.exhausted "plain.bag") = Throws EndOfLogError).
Proof. intros Hclaim. specialize (Hclaim eq_refl). discriminate Hclaim. Qed.

(** C7, amended. When [has_next] answers false, [read_next] raises no
    error: it dereferences the end iterator of the view, which is
    undefined. *)
Theorem read_next_at_end_undefined (this : RosbagV2Storage) :
  has_next this = Returns false ->
  read_next this = Undefined PastTheEnd.
Proof.
  unfold has_next, read_next.
  destruct (bag_view_of_replayable_messages_ this) as [view|]; [|done].
  intros [= Hend]. apply bool_decide_eq_false in Hend.
  assert (bag_iterator_ this = rosbag.end_ view) as ->
    by (destruct (decide (bag_iterator_ this = rosbag.end_ view)); done).
  unfold rosbag.end_. by rewrite lookup_ge_None_2.
Qed.

Lemma read_next_at_end_undefined_witness :
  read_next (Sample.exhausted "plain.bag") = Undefined PastTheEnd.
Proof. apply read_next_at_end_undefined. reflexivity. Defined.

(** ** C9: [get_metadata] twice *)

Lemma get_metadata_hands_back get_1to2_mapping fs this :
  (get_metadata get_1to2_mapping fs this).2.2 = this.
Proof. reflexivity. Qed.

(** The cursor has no part in the metadata. *)
Lemma get_metadata_ignores_cursor get_1to2_mapping fs this i :
  (get_metadata get_1to2_mapping fs (at_position this i)).2.1
  = (get_metadata get_1to2_mapping fs this).2.1.
Proof. reflexivity. Qed.

(** C9. Two successive calls of [get_metadata] on an opened log, over the
    same file system, return the same size, duration, starting time, total
    message count and per-topic message counts. *)
Theorem get_metadata_twice
    (get_1to2_mapping : string -> option string) (fs : FileSystem)
    (this : RosbagV2Storage) :
  let first := (get_metadata get_1to2_mapping fs this).2 in
  let second := (get_metadata get_1to2_mapping fs first.2).2 in
  bag_size first.1 = bag_size second.1 /\
  duration first.1 = duration second.1 /\
  starting_time first.1 = starting_time second.1 /\
  total_message_count first.1 = total_message_count second.1 /\
  topics_with_message_count first.1 = topics_with_message_count second.1.
Proof.
  intros first second. subst second.
  rewrite (get_metadata_hands_back get_1to2_mapping fs this : first.2 = this).
  by subst first.
Qed.

(** ** C10: the view pointer *)

Lemma Opened_view get_1to2_mapping this :
  Opened get_1to2_mapping this ->
  exists view,
    bag_view_of_replayable_messages_ this = Some view /\
    (bag_iterator_ this <= rosbag.end_ view)%nat.
Proof.
  induction 1 as [fs uri flag this events this' Hopen
                 |this m this' _ (view & Hview & Hle) Hread
                 |fs this events metadata this' _ IH Hmeta].
  - apply open_Returns in Hopen as (_ & conns & msgs & _ & ->).
    eexists. split; [reflexivity|]. simpl. lia.
  - unfold read_next in Hread. rewrite Hview in Hread.
    destruct (rosbag.view_messages view !! bag_iterator_ this) as [mi|] eqn:Hmi;
      [|done].
    injection Hread as _ <-. exists view. split; [done|]. simpl.
    apply lookup_lt_Some in Hmi. unfold rosbag.end_. lia.
  - injection Hmeta as _ _ <-. exact IH.
Qed.

(** C10. The constructor leaves the view pointer null, and on the fresh
    instance [has_next] and [read_next] dereference it.  Once [open] has
    succeeded the pointer is set and stays set: neither operation takes the
    null-dereference branch. *)
Theorem open_sets_view_pointer (get_1to2_mapping : string -> option string) :
  bag_view_of_replayable_messages_ RosbagV2Storage_new = None /\
  has_next RosbagV2Storage_new = Undefined NullDereference /\
  read_next RosbagV2Storage_new = Undefined NullDereference /\
  forall this, Opened get_1to2_mapping this ->
    (exists more, has_next this = Returns more) /\
    read_next this <> Undefined NullDereference.
Proof.
  split_and!; [done..|].
  intros this (view & Hview & _)%Opened_view.
  unfold has_next, read_next. rewrite Hview. split; [eauto|].
  by destruct (rosbag.view_messages view !! bag_iterator_ this).
Qed.

(** Past a successful [open], [has_next] tells whether [read_next]
    returns. *)
Lemma Opened_has_next get_1to2_mapping this :
  Opened get_1to2_mapping this ->
  has_next this = Returns true <-> exists m this', read_next this = Returns (m, this').
Proof.
  intros (view & Hview & Hle)%Opened_view.
  rewrite (has_next_at this view Hview). unfold read_next. rewrite Hview.
  unfold rosbag.end_ in Hle. split.
  - intros [= Hmore%bool_decide_eq_true].
    destruct (rosbag.view_messages view !! bag_iterator_ this) eqn:Hmi; [eauto|].
    apply lookup_ge_None in Hmi. lia.
  - intros (m & this' & Hread).
    destruct (rosbag.view_messages view !! bag_iterator_ this) eqn:Hmi; [|done].
    apply lookup_lt_Some in Hmi. f_equal. apply bool_decide_eq_true. lia.
Qed.

Lemma get_metadata_same_bag get_1to2_mapping fs this this' :
  ros_v2_bag_ this = ros_v2_bag_ this' ->
  (get_metadata get_1to2_mapping fs this).2.1
  = (get_metadata get_1to2_mapping fs this').2.1.
Proof.
  intros Hbag. unfold get_metadata, get_bagfile_size, get_relative_file_path,
    get_topic_information, get_all_topics_and_types,
    get_all_topics_and_types_including_ros1_topics.
  simpl. by rewrite Hbag.
Qed.

(** ** C8: which topics [open] replays *)

(** C8, as stated, fails: in the sample log whose first connection on
    [/chatter] is unmapped and whose second is mapped, the first-seen
    connection would exclude the topic, yet [open] includes it. *)
Lemma first_seen_does_not_decide :
  ~ ("/chatter" ∈ topics_valid_in_ros2 Sample.mapping
                    (Sample.bag_of "unmapped_first.bag" Sample.unmapped_first_log)
     <-> included_by_first_seen Sample.mapping
           (rosbag.connections_
              (Sample.bag_of "unmapped_first.bag" Sample.unmapped_first_log))
           "/chatter").
Proof.
  intros [Hincluded _].
  destruct Hincluded as (c & Hfirst & Hmapped).
  - vm_compute. apply list_elem_of_here.
  - vm_compute in Hfirst. injection Hfirst as <-.
    destruct Hmapped as [host Hhost]. vm_compute in Hhost. discriminate Hhost.
Qed.

Lemma topics_valid_in_ros2_elem get_1to2_mapping b t :
  t ∈ topics_valid_in_ros2 get_1to2_mapping b <->
  exists c, c ∈ rosbag.connections_ b /\ rosbag.topic c = t /\
            mapped get_1to2_mapping c.
Proof.
  unfold topics_valid_in_ros2. rewrite getConnections_unrestricted.
  apply open_loop_elem.
Qed.

Lemma topics_valid_in_ros2_NoDup get_1to2_mapping b :
  NoDup (topics_valid_in_ros2 get_1to2_mapping b).
Proof.
  unfold topics_valid_in_ros2. rewrite getConnections_unrestricted.
  apply open_loop_NoDup.
Qed.

(** C8, amended. A topic is replayed exactly when some connection on it,
    first-seen or not, has a mapped type; however often a topic occurs, it is
    listed once. *)
Theorem topics_valid_in_ros2_inclusion
    (get_1to2_mapping : string -> option string) (b : rosbag.Bag) :
  (forall t,
     t ∈ topics_valid_in_ros2 get_1to2_mapping b <->
     exists c, c ∈ rosbag.connections_ b /\ rosbag.topic c = t /\
               mapped get_1to2_mapping c) /\
  NoDup (topics_valid_in_ros2 get_1to2_mapping b).
Proof.
  split.
  - intros t. apply topics_valid_in_ros2_elem.
  - apply topics_valid_in_ros2_NoDup.
Qed.

(** The records of the view that [open] builds. *)
Lemma replayable_records get_1to2_mapping b m :
  m ∈ rosbag.view_messages
        (rosbag.make_View b
           (rosbag.TopicQuery (topics_valid_in_ros2 get_1to2_mapping b)))
  <-> m ∈ rosbag.messages_ b /\
      exists c, c ∈ rosbag.connections_ b /\
                rosbag.topic c = rosbag.getTopic m /\ mapped get_1to2_mapping c.
Proof.
  by rewrite elem_of_view_messages, topics_valid_in_ros2_elem.
Qed.

Lemma filter_ext_elem {A : Type} (P Q : A -> Prop)
    `{forall x, Decision (P x)} `{forall x, Decision (Q x)} (l : list A) :
  (forall x, x ∈ l -> P x <-> Q x) -> filter P l = filter Q l.
Proof.
  induction l as [|x l IH]; intros Hext; [done|].
  rewrite !filter_cons.
  rewrite IH by (intros y Hy; apply Hext; by right).
  destruct (decide (P x)) as [Hp|Hp], (decide (Q x)) as [Hq|Hq]; try done;
    exfalso; apply (Hext x (list_elem_of_here _ _)) in Hp || apply (Hext x (list_elem_of_here _ _)) in Hq; done.
Qed.

(** Where the connections of each topic are all mapped or all unmapped, the
    view that [open] builds holds the records on mapped channels, no more and
    no less. *)
Lemma replayable_view_of_agreeing_log get_1to2_mapping b :
  rosbag.Bag_ok b ->
  mapping_agrees_per_topic get_1to2_mapping b ->
  rosbag.view_messages
    (rosbag.make_View b (rosbag.TopicQuery (topics_valid_in_ros2 get_1to2_mapping b)))
  = records_on_mapped_channels get_1to2_mapping b.
Proof.
  intros Hok Hagree. unfold records_on_mapped_channels, rosbag.make_View. simpl.
  apply filter_ext_elem. intros m Hm. unfold rosbag.TopicQuery.
  rewrite bool_decide_spec, topics_valid_in_ros2_elem. split.
  - intros (c & Hc & Htopic & Hmapped).
    exact (Hagree c (rosbag.connection_info_ m) Hc (Hok m Hm) Htopic Hmapped).
  - intros Hmapped. exists (rosbag.connection_info_ m).
    split_and!; [exact (Hok m Hm)|reflexivity|exact Hmapped].
Qed.

(** X5. On a log in which the connections of each topic are all mapped or
    all unmapped, reading to the end after [open] yields the records on
    mapped channels, in order, and [has_next] turns false after exactly as
    many reads as there are such records. *)
Lemma read_agreeing_log_to_end get_1to2_mapping fs uri flag this events this' :
  open get_1to2_mapping fs uri flag this = (events, Returns this') ->
  rosbag.Bag_ok (ros_v2_bag_ this') ->
  mapping_agrees_per_topic get_1to2_mapping (ros_v2_bag_ this') ->
  let records := records_on_mapped_channels get_1to2_mapping (ros_v2_bag_ this') in
  read_while_has_next (length records) this'
    = Returns (serialized <$> records, at_position this' (length records)) /\
  has_next (at_position this' (length records)) = Returns false /\
  forall i, (i < length records)%nat ->
    has_next (at_position this' i) = Returns true.
Proof.
  intros (_ & conns & msgs & _ & ->)%open_Returns Hok Hagree records.
  cbn [ros_v2_bag_] in *.
  set (bag := {| rosbag.file_name := uri; rosbag.connections_ := conns;
                 rosbag.messages_ := msgs |}) in *.
  pose proof (replayable_view_of_agreeing_log get_1to2_mapping bag Hok Hagree)
    as Hview.
  fold records in Hview. split_and!.
  - erewrite read_while_has_next_all; [|reflexivity|simpl; lia|].
    + cbn [bag_iterator_]. by rewrite Hview.
    + rewrite Hview. simpl. lia.
  - erewrite has_next_at by reflexivity. rewrite Hview.
    f_equal. apply bool_decide_eq_false_2. intros Hne. by apply Hne.
  - intros i Hi. erewrite has_next_at by reflexivity. rewrite Hview.
    f_equal. apply bool_decide_eq_true. simpl. lia.
Qed.

(** ** C4: the topics and types that the adapter lists *)

Lemma get_all_topics_and_types_omap get_1to2_mapping this :
  get_all_topics_and_types get_1to2_mapping this
  = omap (host_entry get_1to2_mapping)
      (get_all_topics_and_types_including_ros1_topics this).
Proof. apply keep_mapped_omap. Qed.

Lemma legacy_entries_spec this :
  NoDup (get_all_topics_and_types_including_ros1_topics this) /\
  forall l,
    l ∈ get_all_topics_and_types_including_ros1_topics this <->
    exists c, c ∈ rosbag.connections_ (ros_v2_bag_ this) /\ l = legacy_entry c.
Proof.
  unfold get_all_topics_and_types_including_ros1_topics.
  rewrite getConnections_unrestricted.
  apply (collect_new_spec legacy_entry).
Qed.

Lemma host_entry_Some get_1to2_mapping l e :
  host_entry get_1to2_mapping l = Some e <->
  name e = name l /\ get_1to2_mapping (type l) = Some (type e) /\
  serialization_format e = serialization_format l.
Proof.
  unfold host_entry. destruct (get_1to2_mapping (type l)) as [h|]; simpl.
  - split.
    + intros [= <-]. done.
    + destruct e as [n t f]. simpl. intros (-> & [= ->] & ->). done.
  - split; [done|]. intros (_ & ? & _). done.
Qed.

Lemma names_of_host_entries_sublist get_1to2_mapping (l : list TopicMetadata) :
  name <$> omap (host_entry get_1to2_mapping) l `sublist_of` name <$> l.
Proof.
  induction l as [|e l IH]; [done|].
  cbn [omap list_omap fmap list_fmap].
  destruct (host_entry get_1to2_mapping e) as [h|] eqn:Hh.
  - apply host_entry_Some in Hh as (Hname & _ & _).
    cbn [fmap list_fmap]. rewrite Hname. by apply sublist_skip.
  - by apply sublist_cons.
Qed.

(** C4, as stated, fails: in the sample log whose topic [/chatter] carries
    two mapped types, the topic is listed twice. *)
Lemma topic_with_two_types_listed_twice :
  ~ NoDup (name <$> get_all_topics_and_types Sample.mapping
                      (Sample.opened "two_types.bag")).
Proof.
  intros Hnodup. vm_compute in Hnodup.
  apply NoDup_cons in Hnodup as [Hnew _]. apply Hnew, list_elem_of_here.
Qed.

(** C4, amended. The unfiltered list holds one entry per distinct (topic,
    legacy type) pair of the connections; [get_all_topics_and_types] keeps,
    in order, the entries whose legacy type is mapped, with the host type in
    the type field and the tag ["rosbag_v2"].  So it lists exactly the mapped
    channels, once per (topic, legacy type) pair; it lists each topic once
    when the log assigns one type per topic. *)
Theorem get_all_topics_and_types_lists_mapped_channels
    (get_1to2_mapping : string -> option string) (this : RosbagV2Storage) :
  let legacy := get_all_topics_and_types_including_ros1_topics this in
  let listed := get_all_topics_and_types get_1to2_mapping this in
  NoDup legacy /\
  (forall l, l ∈ legacy <->
     exists c, c ∈ rosbag.connections_ (ros_v2_bag_ this) /\ l = legacy_entry c) /\
  listed = omap (host_entry get_1to2_mapping) legacy /\
  (forall e, e ∈ listed <->
     exists c, c ∈ rosbag.connections_ (ros_v2_bag_ this) /\
               name e = rosbag.topic c /\
               get_1to2_mapping (rosbag.datatype c) = Some (type e) /\
               serialization_format e = "rosbag_v2") /\
  (one_type_per_topic (ros_v2_bag_ this) -> NoDup (name <$> listed)).
Proof.
  intros legacy listed.
  destruct (legacy_entries_spec this) as [Hnodup Helem]. fold legacy in Hnodup, Helem.
  assert (listed = omap (host_entry get_1to2_mapping) legacy) as Hlisted
    by apply get_all_topics_and_types_omap.
  split_and!; [done..| |].
  - intros e. rewrite Hlisted, list_elem_of_omap. split.
    + intros (l & (c & Hc & ->)%Helem & Hhost%host_entry_Some). eauto.
    + intros (c & Hc & Hname & Htype & Hformat).
      exists (legacy_entry c). split; [apply Helem; eauto|].
      by apply host_entry_Some.
  - intros Hone. rewrite Hlisted.
    eapply sublist_NoDup; [|apply names_of_host_entries_sublist].
    apply NoDup_fmap_2_strong; [|done].
    intros l l' (c & Hc & ->)%Helem (c' & Hc' & ->)%Helem Hname.
    simpl in Hname. unfold legacy_entry. f_equal; [done|].
    by apply Hone.
Qed.

Lemma get_all_topics_and_types_lists_mapped_channels_witness :
  one_type_per_topic (ros_v2_bag_ (Sample.opened "plain.bag")) /\
  NoDup (name <$> get_all_topics_and_types Sample.mapping
                    (Sample.opened "plain.bag")).
Proof.
  assert (one_type_per_topic (ros_v2_bag_ (Sample.opened "plain.bag"))) as Hone.
  { intros c c' Hc Hc' Htopic.
    repeat (apply elem_of_cons in Hc as [->|Hc]);
      repeat (apply elem_of_cons in Hc' as [->|Hc']);
      try done; by apply elem_of_nil in Hc || by apply elem_of_nil in Hc'. }
  split; [exact Hone|].
  exact (proj2 (proj2 (proj2 (proj2
    (get_all_topics_and_types_lists_mapped_channels Sample.mapping
       (Sample.opened "plain.bag"))))) Hone).
Defined.

(** ** C2 and C5: a topic with a mapped and an unmapped connection

    The sample log [mixed.bag] has two connections on [/chatter], one of the
    mapped type [std_msgs/String] with one record and one of the unmapped
    type [my_pkg/Custom] with two records. *)

(** C2 at [mixed.bag]: one record is on a mapped channel, yet [has_next]
    is still true after one read, and reading to the end yields three
    records. *)
Theorem mixed_topic_reads_past_mapped_records :
  let this := Sample.opened "mixed.bag" in
  length (records_on_mapped_channels Sample.mapping (ros_v2_bag_ this)) = 1%nat /\
  (exists m this', read_next this = Returns (m, this') /\
                   has_next this' = Returns true) /\
  (exists ms this', read_while_has_next 16 this = Returns (ms, this') /\
                    length ms = 3%nat /\
                    has_next this' = Returns false).
Proof.
  split_and!.
  - reflexivity.
  - eexists _, _. split; reflexivity.
  - eexists _, _. split_and!; reflexivity.
Qed.

(** C5 at [mixed.bag]: [open] logs that it skips the messages of
    [/chatter] of type [my_pkg/Custom]; the first record that [read_next]
    returns carries that type at the front of its buffer, the table has no
    entry for it, and [deserialize] fails with [UnmappedTypeError]. *)
Theorem mixed_topic_yields_unmapped_type :
  LogInfo (skip_notice Sample.chatter_custom)
    ∈ (open Sample.mapping Sample.fs "mixed.bag" READ_ONLY RosbagV2Storage_new).1 /\
  exists m this',
    read_next (Sample.opened "mixed.bag") = Returns (m, this') /\
    split_tagged_buffer (serialized_data m) = Returns ("my_pkg/Custom", [x2a]) /\
    Sample.mapping "my_pkg/Custom" = None /\
    deserialize Sample.mapping Sample.keep_bytes m Sample.blank
      = Throws UnmappedTypeError.
Proof.
  split.
  - vm_compute. apply list_elem_of_further, list_elem_of_here.
  - eexists _, _. split_and!; reflexivity.
Qed.

(** ** Instances at the sample logs *)

Lemma tagged_buffer_wire_format_witness :
  let this := Sample.opened "plain.bag" in
  let mi := Sample.record Sample.chatter 100
              [x05; x00; x00; x00; x68; x65; x6c; x6c; x6f] in
  exists m this',
    read_next this = Returns (m, this') /\
    serialized_data m = bytes "std_msgs/String" ++ [NUL] ++ rosbag.data mi /\
    split_tagged_buffer (serialized_data m)
      = Returns ("std_msgs/String", rosbag.data mi).
Proof.
  intros this mi.
  destruct (tagged_buffer_wire_format Sample.mapping (list byte)
              Sample.keep_bytes this
              (rosbag.make_View (ros_v2_bag_ this) (rosbag.TopicQuery ["/chatter"]))
              mi Sample.blank eq_refl eq_refl eq_refl)
    as (m & this' & type_name & payload & Hread & Hdata & Hsplit & _ & _ & _ & _
        & Hfree).
  assert (nul_free (rosbag.getDataType mi)) as Hnul by compute_done.
  destruct (Hfree Hnul) as [-> ->].
  exists m, this'. split_and!; assumption.
Defined.

Lemma read_then_deserialize_keeps_time_and_c_string_topic_witness :
  let this := Sample.opened "plain.bag" in
  exists m this' object,
    read_next this = Returns (m, this') /\
    deserialize Sample.mapping Sample.keep_bytes m Sample.blank = Returns object /\
    rosbag2_cpp.time_stamp object = 100000000000 /\
    rosbag2_cpp.topic_name object = "/chatter".
Proof.
  intros this.
  destruct (read_then_deserialize_keeps_time_and_c_string_topic Sample.mapping
              (list byte) Sample.keep_bytes this
              (rosbag.make_View (ros_v2_bag_ this) (rosbag.TopicQuery ["/chatter"]))
              (Sample.record Sample.chatter 100
                 [x05; x00; x00; x00; x68; x65; x6c; x6c; x6f])
              Sample.blank eq_refl eq_refl)
    as (m & this' & object & Hread & _ & Hdeserialize & Htime & _ & _ & Htopic).
  - exists "std_msgs/msg/String". reflexivity.
  - split; unfold uint32; simpl; lia.
  - compute_done.
  - exists m, this', object. split_and!; [done..|].
    apply Htopic. compute_done.
Defined.

Lemma open_sets_view_pointer_witness :
  Opened Sample.mapping (Sample.opened "plain.bag") /\
  (exists more, has_next (Sample.opened "plain.bag") = Returns more) /\
  read_next (Sample.opened "plain.bag") <> Undefined NullDereference.
Proof.
  assert (Opened Sample.mapping (Sample.opened "plain.bag")) as Hopened.
  { apply (Opened_open Sample.mapping Sample.fs "plain.bag" READ_ONLY
             RosbagV2Storage_new
             (open Sample.mapping Sample.fs "plain.bag" READ_ONLY
                RosbagV2Storage_new).1).
    reflexivity. }
  split; [exact Hopened|].
  exact (proj2 (proj2 (proj2 (open_sets_view_pointer Sample.mapping)))
           (Sample.opened "plain.bag") Hopened).
Defined.

(** * Further properties of the adapter *)

(** ** What [open] logs and what it selects *)

(** X1. A successful [open] touches the file once and then logs one notice
    for every connection whose type has no mapping, in the order of the
    connections, also when the topic is replayed through another
    connection; it logs nothing for mapped connections. *)
Theorem open_logs_each_unmapped_connection
    (get_1to2_mapping : string -> option string) (fs : FileSystem)
    (uri : string) (this : RosbagV2Storage)
    (conns : list rosbag.ConnectionInfo) (msgs : list rosbag.MessageInstance) :
  contents fs uri = Some (conns, msgs) ->
  (open get_1to2_mapping fs uri READ_ONLY this).1
  = OpenFile uri ::
      ((fun c => LogInfo (skip_notice c)) <$>
         filter (fun c => ~ mapped get_1to2_mapping c) conns).
Proof.
  intros Hfile. unfold open, Bag_open. rewrite Hfile.
  destruct (decide (READ_ONLY = READ_WRITE)) as [|_]; [done|].
  rewrite getConnections_unrestricted. cbn [rosbag.connections_].
  pose proof (open_loop_log get_1to2_mapping conns) as Hlog.
  destruct (open_loop get_1to2_mapping conns) as [topics log].
  cbn [fst snd] in *. rewrite Hlog. cbn [app]. f_equal.
  by rewrite <- list_fmap_compose.
Qed.

Lemma open_logs_each_unmapped_connection_witness :
  (open Sample.mapping Sample.fs "mixed.bag" READ_ONLY RosbagV2Storage_new).1
  = [OpenFile "mixed.bag"; LogInfo (skip_notice Sample.chatter_custom)].
Proof.
  exact (open_logs_each_unmapped_connection Sample.mapping Sample.fs "mixed.bag"
           RosbagV2Storage_new _ _ eq_refl).
Defined.

(** X2. After a successful [open] the cursor is at the start of a view
    whose records are the records of the log whose topic has at least one
    connection with a mapped type: the same records, as often as the log
    holds them and in the order of the log.  The bag keeps the uri as its
    file name. *)
Theorem open_selects_records_by_topic
    (get_1to2_mapping : string -> option string) (fs : FileSystem)
    (uri : string) (flag : IOFlag) (this this' : RosbagV2Storage)
    (events : list event) :
  open get_1to2_mapping fs uri flag this = (events, Returns this') ->
  exists view,
    bag_view_of_replayable_messages_ this' = Some view /\
    bag_iterator_ this' = 0%nat /\
    rosbag.file_name (ros_v2_bag_ this') = uri /\
    rosbag.view_messages view
    = filter (fun m => topic_has_mapped_connection get_1to2_mapping
                         (ros_v2_bag_ this') (rosbag.getTopic m))
        (rosbag.messages_ (ros_v2_bag_ this')).
Proof.
  intros (_ & conns & msgs & _ & ->)%open_Returns.
  eexists. split_and!; try reflexivity.
  cbn [ros_v2_bag_ rosbag.messages_ rosbag.make_View rosbag.view_messages].
  apply filter_ext_elem. intros m _.
  unfold rosbag.TopicQuery, topic_has_mapped_connection.
  rewrite bool_decide_spec, topics_valid_in_ros2_elem, Exists_exists.
  reflexivity.
Qed.

Lemma open_selects_records_by_topic_witness :
  exists view,
    bag_view_of_replayable_messages_ (Sample.opened "plain.bag") = Some view /\
    rosbag.view_messages view
    = [Sample.record Sample.chatter 100
         [x05; x00; x00; x00; x68; x65; x6c; x6c; x6f];
       Sample.record Sample.chatter 200 [x00; x00; x00; x00]].
Proof.
  destruct (open_selects_records_by_topic Sample.mapping Sample.fs "plain.bag"
              READ_ONLY RosbagV2Storage_new (Sample.opened "plain.bag") _ eq_refl)
    as (view & Hview & _ & _ & Hrecords).
  exists view. split; [assumption|]. rewrite Hrecords. reflexivity.
Defined.

(** ** The protocol of [has_next] and [read_next] *)

(** X3. In every state reached after a successful [open], the cursor is
    within the view, [has_next] answers true exactly when the cursor is
    before the end, and exactly then [read_next] returns: it hands out the
    record under the cursor, moves the cursor by one and changes nothing
    else. *)
Theorem has_next_guards_read_next
    (get_1to2_mapping : string -> option string) (this : RosbagV2Storage) :
  Opened get_1to2_mapping this ->
  exists view,
    bag_view_of_replayable_messages_ this = Some view /\
    (bag_iterator_ this <= length (rosbag.view_messages view))%nat /\
    (has_next this = Returns true <->
     (bag_iterator_ this < length (rosbag.view_messages view))%nat) /\
    (has_next this = Returns true <->
     exists mi,
       rosbag.view_messages view !! bag_iterator_ this = Some mi /\
       read_next this
       = Returns (serialized mi, at_position this (S (bag_iterator_ this)))).
Proof.
  intros (view & Hview & Hle)%Opened_view. unfold rosbag.end_ in Hle.
  exists view. rewrite (has_next_at this view Hview).
  assert (Returns (bool_decide
                     (bag_iterator_ this <> length (rosbag.view_messages view)))
          = Returns true <->
          (bag_iterator_ this < length (rosbag.view_messages view))%nat) as Hiff.
  { split.
    - intros [= Hmore%bool_decide_eq_true]. lia.
    - intros Hlt. f_equal. apply bool_decide_eq_true. lia. }
  split_and!; [done..|].
  rewrite Hiff. split.
  - intros (mi & Hmi)%lookup_lt_is_Some_2. exists mi.
    split; [done|]. by apply read_next_at with view.
  - intros (mi & Hmi & _). by apply lookup_lt_Some in Hmi.
Qed.

Lemma has_next_guards_read_next_witness :
  exists view,
    bag_view_of_replayable_messages_ (Sample.opened "plain.bag") = Some view /\
    (bag_iterator_ (Sample.opened "plain.bag")
     <= length (rosbag.view_messages view))%nat.
Proof.
  destruct (has_next_guards_read_next Sample.mapping (Sample.opened "plain.bag"))
    as (view & Hview & Hle & _).
  - apply (Opened_open Sample.mapping Sample.fs "plain.bag" READ_ONLY
             RosbagV2Storage_new
             (open Sample.mapping Sample.fs "plain.bag" READ_ONLY
                RosbagV2Storage_new).1).
    reflexivity.
  - exists view. split; assumption.
Defined.

(** X4. From any state reached after a successful [open], reading while
    [has_next] is true returns every record from the cursor to the end of the
    view, each once and in the order of the view, and stops with the cursor
    at the end, where [has_next] is false; the log and the view are the
    same as before. *)
Theorem read_to_end_yields_remaining_records
    (get_1to2_mapping : string -> option string) (this : RosbagV2Storage)
    (fuel : nat) :
  Opened get_1to2_mapping this ->
  exists view,
    bag_view_of_replayable_messages_ this = Some view /\
    ((length (rosbag.view_messages view) - bag_iterator_ this <= fuel)%nat ->
     read_while_has_next fuel this
     = Returns (serialized <$> drop (bag_iterator_ this) (rosbag.view_messages view),
                at_position this (length (rosbag.view_messages view))) /\
     has_next (at_position this (length (rosbag.view_messages view)))
     = Returns false).
Proof.
  intros (view & Hview & Hle)%Opened_view. unfold rosbag.end_ in Hle.
  exists view. split; [done|]. intros Hfuel. split.
  - by apply read_while_has_next_all.
  - erewrite has_next_at by exact Hview. f_equal.
    apply bool_decide_eq_false_2. intros Hne. by apply Hne.
Qed.

Lemma read_to_end_yields_remaining_records_witness :
  exists ms this',
    read_while_has_next 5 (Sample.opened "plain.bag") = Returns (ms, this') /\
    length ms = 2%nat /\
    has_next this' = Returns false.
Proof.
  destruct (read_to_end_yields_remaining_records Sample.mapping
              (Sample.opened "plain.bag") 5)
    as (view & Hview & Hread).
  - apply (Opened_open Sample.mapping Sample.fs "plain.bag" READ_ONLY
             RosbagV2Storage_new
             (open Sample.mapping Sample.fs "plain.bag" READ_ONLY
                RosbagV2Storage_new).1).
    reflexivity.
  - injection Hview as <-.
    destruct Hread as [Hall Hend]; [simpl; lia|].
    eexists _, _. split_and!; [exact Hall|reflexivity|exact Hend].
Defined.

Lemma read_agreeing_log_to_end_witness :
  read_while_has_next 2 (Sample.opened "plain.bag")
  = Returns (serialized <$>
               records_on_mapped_channels Sample.mapping
                 (ros_v2_bag_ (Sample.opened "plain.bag")),
             at_position (Sample.opened "plain.bag") 2).
Proof.
  refine (proj1 (read_agreeing_log_to_end Sample.mapping Sample.fs "plain.bag"
                   READ_ONLY RosbagV2Storage_new _ (Sample.opened "plain.bag")
                   eq_refl _ _)).
  - intros m Hm.
    repeat (apply elem_of_cons in Hm as [->|Hm]);
      [..|by apply elem_of_nil in Hm];
      vm_compute;
      repeat first [apply list_elem_of_here|apply list_elem_of_further].
  - intros c c' Hc Hc' Htopic Hmapped.
    repeat (apply elem_of_cons in Hc as [->|Hc]);
      try (by apply elem_of_nil in Hc);
      repeat (apply elem_of_cons in Hc' as [->|Hc']);
      try (by apply elem_of_nil in Hc'); done.
Defined.

(** ** Reading and the metadata *)

Lemma read_while_has_next_keeps_log fuel this ms this' :
  read_while_has_next fuel this = Returns (ms, this') ->
  ros_v2_bag_ this' = ros_v2_bag_ this /\
  bag_view_of_replayable_messages_ this' = bag_view_of_replayable_messages_ this /\
  bag_iterator_ this' = (bag_iterator_ this + length ms)%nat.
Proof.
  revert this ms this'. induction fuel as [|fuel IH]; intros this ms this' Hread.
  - injection Hread as <- <-. simpl. split_and!; [done..|lia].
  - cbn [read_while_has_next] in Hread.
    destruct (has_next this) as [[|]| |]; cbn [mbind outcome_bind] in Hread;
      try done.
    + unfold read_next in Hread.
      destruct (bag_view_of_replayable_messages_ this) as [view|] eqn:Hview;
        [|done].
      destruct (rosbag.view_messages view !! bag_iterator_ this) as [mi|];
        [|done].
      cbn [mbind outcome_bind] in Hread.
      destruct (read_while_has_next fuel _) as [[ms' this'']| |] eqn:Hrest;
        [|done..].
      injection Hread as <- <-.
      apply IH in Hrest as (Hbag & Hv & Hit). simpl in *.
      split_and!; [done|congruence|lia].
    + injection Hread as <- <-. simpl. split_and!; [done..|lia].
Qed.

(** X6. Reading changes nothing but the cursor, which moves by the number
    of records handed out: after any number of reads the adapter reports the
    same metadata and the same topics and types as before. *)
Theorem reading_leaves_metadata_unchanged
    (get_1to2_mapping : string -> option string) (fs : FileSystem)
    (fuel : nat) (this this' : RosbagV2Storage)
    (ms : list SerializedBagMessage) :
  read_while_has_next fuel this = Returns (ms, this') ->
  this' = at_position this (bag_iterator_ this + length ms) /\
  (get_metadata get_1to2_mapping fs this').2.1
  = (get_metadata get_1to2_mapping fs this).2.1 /\
  get_all_topics_and_types get_1to2_mapping this'
  = get_all_topics_and_types get_1to2_mapping this.
Proof.
  intros (Hbag & Hview & Hit)%read_while_has_next_keeps_log.
  assert (this' = at_position this (bag_iterator_ this + length ms)) as ->.
  { destruct this'. unfold at_position. simpl in *. by subst. }
  split_and!; reflexivity.
Qed.

Lemma reading_leaves_metadata_unchanged_witness :
  (get_metadata Sample.mapping Sample.fs (Sample.exhausted "plain.bag")).2.1
  = (get_metadata Sample.mapping Sample.fs (Sample.opened "plain.bag")).2.1.
Proof.
  refine (proj1 (proj2 (reading_leaves_metadata_unchanged Sample.mapping Sample.fs
                          16 (Sample.opened "plain.bag")
                          (Sample.exhausted "plain.bag") _ eq_refl))).
Defined.

(** ** Message counts per topic *)

Lemma foldl_push_back_fmap {A B : Type} (f : A -> B) (l : list A) :
  foldl (fun done_so_far x => done_so_far ++ [f x]) [] l = f <$> l.
Proof.
  induction l as [|x l IH] using rev_ind; [done|].
  by rewrite foldl_snoc, fmap_app, IH.
Qed.

Lemma records_of_topic (b : rosbag.Bag) (t : string) :
  rosbag.view_messages (rosbag.make_View b (rosbag.TopicQuery [t]))
  = filter (fun m => rosbag.getTopic m = t) (rosbag.messages_ b).
Proof.
  unfold rosbag.make_View, rosbag.TopicQuery, rosbag.getTopic. simpl.
  apply filter_ext_elem. intros m _.
  by rewrite bool_decide_spec, list_elem_of_singleton.
Qed.

Lemma get_topic_information_fmap get_1to2_mapping this :
  get_topic_information get_1to2_mapping this
  = (fun topic =>
       {| topic_metadata := topic;
          message_count :=
            wrap_uint32
              (Z.of_nat
                 (length (filter (fun m => rosbag.getTopic m = name topic)
                            (rosbag.messages_ (ros_v2_bag_ this))))) |})
      <$> get_all_topics_and_types get_1to2_mapping this.
Proof.
  unfold get_topic_information.
  rewrite (foldl_push_back_fmap
             (fun topic =>
                {| topic_metadata := topic;
                   message_count :=
                     rosbag.size
                       (rosbag.make_View (ros_v2_bag_ this)
                          (rosbag.TopicQuery [name topic])) |})).
  apply list_fmap_ext. intros _ topic _. f_equal.
  unfold rosbag.size. by rewrite records_of_topic.
Qed.

(** X7. [get_topic_information] has one entry for each entry of
    [get_all_topics_and_types], in the same order; the message count of an
    entry is the number of records of the whole log on its topic, whatever
    their type, as a [uint32_t]. *)
Theorem get_topic_information_counts_by_topic
    (get_1to2_mapping : string -> option string) (this : RosbagV2Storage) :
  topic_metadata <$> get_topic_information get_1to2_mapping this
  = get_all_topics_and_types get_1to2_mapping this /\
  forall info,
    info ∈ get_topic_information get_1to2_mapping this ->
    message_count info
    = wrap_uint32
        (Z.of_nat
           (length (filter (fun m => rosbag.getTopic m = name (topic_metadata info))
                      (rosbag.messages_ (ros_v2_bag_ this))))).
Proof.
  rewrite get_topic_information_fmap. split.
  - rewrite <- list_fmap_compose. apply list_fmap_id.
  - intros info (topic & -> & _)%list_elem_of_fmap. reflexivity.
Qed.

Lemma listed_topic_names_elem get_1to2_mapping this t :
  t ∈ name <$> get_all_topics_and_types get_1to2_mapping this <->
  exists c, c ∈ rosbag.connections_ (ros_v2_bag_ this) /\
            rosbag.topic c = t /\ mapped get_1to2_mapping c.
Proof.
  rewrite get_all_topics_and_types_omap, list_elem_of_fmap.
  setoid_rewrite list_elem_of_omap.
  destruct (legacy_entries_spec this) as [_ Hlegacy]. split.
  - intros (e & -> & l & (c & Hc & ->)%Hlegacy & (Hname & Htype & _)%host_entry_Some).
    exists c. split_and!; [done|by rewrite Hname|by eexists].
  - intros (c & Hc & <- & [host Hhost]).
    exists {| name := rosbag.topic c; type := host;
              serialization_format := "rosbag_v2" |}.
    split; [done|]. exists (legacy_entry c).
    split; [apply Hlegacy; eauto|by apply host_entry_Some].
Qed.

Lemma listed_topic_names_NoDup get_1to2_mapping this :
  one_type_per_topic (ros_v2_bag_ this) ->
  NoDup (name <$> get_all_topics_and_types get_1to2_mapping this).
Proof.
  intros Hone. rewrite get_all_topics_and_types_omap.
  destruct (legacy_entries_spec this) as [Hnodup Hlegacy].
  eapply sublist_NoDup; [|apply names_of_host_entries_sublist].
  apply NoDup_fmap_2_strong; [|done].
  intros l l' (c & Hc & ->)%Hlegacy (c' & Hc' & ->)%Hlegacy Hname.
  simpl in Hname. unfold legacy_entry. f_equal; [done|]. by apply Hone.
Qed.

Lemma length_filter_no_topic (msgs : list rosbag.MessageInstance) :
  filter (fun m => rosbag.getTopic m ∈ @nil string) msgs = [].
Proof.
  induction msgs as [|m msgs IH]; [done|].
  rewrite filter_cons_False; [done|]. apply not_elem_of_nil.
Qed.

Lemma length_filter_one_more_topic (t : string) (ts : list string)
    (msgs : list rosbag.MessageInstance) :
  t ∉ ts ->
  length (filter (fun m => rosbag.getTopic m ∈ t :: ts) msgs)
  = (length (filter (fun m => rosbag.getTopic m = t) msgs)
     + length (filter (fun m => rosbag.getTopic m ∈ ts) msgs))%nat.
Proof.
  intros Hnew. induction msgs as [|m msgs IH]; [done|].
  rewrite !filter_cons.
  destruct (decide (rosbag.getTopic m = t)) as [Heq|Hne].
  - rewrite decide_True by (apply elem_of_cons; by left).
    rewrite decide_False by (by rewrite Heq). simpl. by rewrite IH.
  - destruct (decide (rosbag.getTopic m ∈ ts)) as [Hin|Hout].
    + rewrite decide_True by (apply elem_of_cons; by right).
      simpl. rewrite IH. lia.
    + rewrite decide_False; [done|].
      intros [?|?]%elem_of_cons; done.
Qed.

(** Over distinct topics, the records per topic add up to the records on
    these topics. *)
Lemma records_per_topic_add_up (ts : list string)
    (msgs : list rosbag.MessageInstance) :
  NoDup ts ->
  foldr Z.add 0
    ((fun t => Z.of_nat (length (filter (fun m => rosbag.getTopic m = t) msgs)))
       <$> ts)
  = Z.of_nat (length (filter (fun m => rosbag.getTopic m ∈ ts) msgs)).
Proof.
  induction 1 as [|t ts Hnew _ IH].
  - by rewrite length_filter_no_topic.
  - cbn [fmap list_fmap foldr]. rewrite IH.
    rewrite length_filter_one_more_topic by done. lia.
Qed.

(** X8. On a log that assigns one type per topic and has fewer than 2^32
    records, the per-topic message counts of the metadata add up to the
    number of records that [read_next] hands out after [open]; the total
    [message_count] of the metadata counts every record of the log and is
    at least that number. *)
Theorem per_topic_counts_add_up_to_replayable_records
    (get_1to2_mapping : string -> option string) (fs : FileSystem)
    (uri : string) (flag : IOFlag) (this this' : RosbagV2Storage)
    (events : list event) :
  open get_1to2_mapping fs uri flag this = (events, Returns this') ->
  one_type_per_topic (ros_v2_bag_ this') ->
  Z.of_nat (length (rosbag.messages_ (ros_v2_bag_ this'))) < 2 ^ 32 ->
  let metadata := (get_metadata get_1to2_mapping fs this').2.1 in
  exists view,
    bag_view_of_replayable_messages_ this' = Some view /\
    foldr Z.add 0 (message_count <$> topics_with_message_count metadata)
    = Z.of_nat (length (rosbag.view_messages view)) /\
    total_message_count metadata
    = Z.of_nat (length (rosbag.messages_ (ros_v2_bag_ this'))) /\
    Z.of_nat (length (rosbag.view_messages view)) <= total_message_count metadata.
Proof.
  intros Hopen Hone Hsmall metadata.
  pose proof (listed_topic_names_NoDup get_1to2_mapping this' Hone) as Hnodup.
  pose proof (listed_topic_names_elem get_1to2_mapping this') as Hnames.
  apply open_Returns in Hopen as (_ & conns & msgs & _ & ->).
  cbn [ros_v2_bag_ rosbag.messages_ rosbag.connections_] in *.
  set (bag := {| rosbag.file_name := uri; rosbag.connections_ := conns;
                 rosbag.messages_ := msgs |}) in *.
  set (this' := {| ros_v2_bag_ := bag |}) in *.
  eexists. split; [reflexivity|].
  assert (total_message_count metadata = Z.of_nat (length msgs)) as Htotal.
  { subst metadata. unfold get_metadata. cbn. unfold rosbag.size.
    rewrite view_messages_unrestricted. cbn.
    unfold wrap_uint32. rewrite Z.mod_small; [done|lia]. }
  split_and!; [|done|].
  - subst metadata. unfold get_metadata.
    cbn [get_bagfile_size rcutils_get_file_size snd fst topics_with_message_count].
    rewrite get_topic_information_fmap, <- list_fmap_compose.
    cbn [ros_v2_bag_ rosbag.messages_ this' bag].
    erewrite (list_fmap_ext _
                ((fun t => Z.of_nat (length (filter (fun m => rosbag.getTopic m = t) msgs)))
                   ∘ name)).
    2: { intros _ topic _. cbn. unfold wrap_uint32. apply Z.mod_small.
         pose proof (length_filter (fun m => rosbag.getTopic m = name topic) msgs).
         lia. }
    rewrite list_fmap_compose, records_per_topic_add_up by done.
    do 2 f_equal. apply filter_ext_elem. intros m _.
    unfold rosbag.TopicQuery. rewrite bool_decide_spec.
    etrans; [apply Hnames|]. symmetry. apply topics_valid_in_ros2_elem.
  - rewrite Htotal. cbn.
    pose proof (length_filter
                  (fun m => rosbag.TopicQuery
                              (topics_valid_in_ros2 get_1to2_mapping bag)
                              (rosbag.connection_info_ m)) msgs).
    lia.
Qed.

Lemma plain_log_one_type_per_topic :
  one_type_per_topic (ros_v2_bag_ (Sample.opened "plain.bag")).
Proof.
  intros c c' Hc Hc' Htopic.
  repeat (apply elem_of_cons in Hc as [->|Hc]);
    try (by apply elem_of_nil in Hc);
    repeat (apply elem_of_cons in Hc' as [->|Hc']);
    try (by apply elem_of_nil in Hc'); done.
Qed.

Lemma per_topic_counts_add_up_to_replayable_records_witness :
  let metadata :=
    (get_metadata Sample.mapping Sample.fs (Sample.opened "plain.bag")).2.1 in
  foldr Z.add 0 (message_count <$> topics_with_message_count metadata) = 2 /\
  total_message_count metadata = 3.
Proof.
  destruct (per_topic_counts_add_up_to_replayable_records Sample.mapping
              Sample.fs "plain.bag" READ_ONLY RosbagV2Storage_new
              (Sample.opened "plain.bag") _ eq_refl
              plain_log_one_type_per_topic eq_refl)
    as (view & Hview & Hsum & Htotal & _).
  injection Hview as <-. split; [exact Hsum|exact Htotal].
Defined.

(** ** Start and duration in the metadata *)

Lemma stored_time_ok (t : ros.Time) : stored_time t -> ros.Time_ok t.
Proof. unfold stored_time, ros.Time_ok, uint32. lia. Qed.

Lemma ltb_nanoseconds (a b : ros.Time) :
  stored_time a -> stored_time b ->
  ros.ltb a b = true <-> nanoseconds a < nanoseconds b.
Proof.
  unfold stored_time, uint32, ros.ltb, nanoseconds.
  intros (Hsa & Hna & _) (Hsb & Hnb & _).
  rewrite orb_true_iff, andb_true_iff, !Z.ltb_lt, Z.eqb_eq. lia.
Qed.

Lemma toNSec_stored (t : ros.Time) :
  stored_time t -> ros.toNSec t = nanoseconds t /\ 0 < nanoseconds t < 2 ^ 62.
Proof.
  unfold stored_time, uint32, ros.toNSec, wrap_uint64, nanoseconds.
  intros (Hs & Hn & Hpos). rewrite Z.mod_small; lia.
Qed.

(** The least time of a list of records, from a starting value on. *)
Lemma least_time_fold (l : list rosbag.MessageInstance) (start : ros.Time) :
  stored_time start ->
  (forall m, m ∈ l -> stored_time (rosbag.time m)) ->
  let least :=
    foldl (fun begin m =>
             if ros.ltb (rosbag.time m) begin then rosbag.time m else begin)
          start l in
  stored_time least /\
  nanoseconds least <= nanoseconds start /\
  (forall m, m ∈ l -> nanoseconds least <= nanoseconds (rosbag.time m)) /\
  (least = start \/ exists m, m ∈ l /\ least = rosbag.time m).
Proof.
  revert start. induction l as [|m l IH]; intros start Hstart Hl; simpl.
  - split_and!; [done|lia| |by left]. by intros m ?%elem_of_nil.
  - assert (stored_time (rosbag.time m)) as Hm by (apply Hl; by left).
    assert (forall m', m' ∈ l -> stored_time (rosbag.time m')) as Hl'
      by (intros m' ?; apply Hl; by right).
    pose proof (ltb_nanoseconds (rosbag.time m) start Hm Hstart) as Hlt.
    destruct (ros.ltb (rosbag.time m) start).
    + destruct (IH (rosbag.time m) Hm Hl') as (Hs & Hle & Hall & Hwhich).
      assert (nanoseconds (rosbag.time m) < nanoseconds start) by by apply Hlt.
      split_and!; [done|lia| |].
      * intros m' [->|Hin]%elem_of_cons; [done|by apply Hall].
      * right. destruct Hwhich as [->|(m' & Hin & ->)].
        -- exists m. split; [by left|done].
        -- exists m'. split; [by right|done].
    + destruct (IH start Hstart Hl') as (Hs & Hle & Hall & Hwhich).
      assert (~ nanoseconds (rosbag.time m) < nanoseconds start)
        by (intros Hn; apply Hlt in Hn; done).
      split_and!; [done..| |].
      * intros m' [->|Hin]%elem_of_cons; [lia|by apply Hall].
      * destruct Hwhich as [->|(m' & Hin & ->)]; [by left|].
        right. exists m'. split; [by right|done].
Qed.

(** The greatest time of a list of records, from a starting value on. *)
Lemma greatest_time_fold (l : list rosbag.MessageInstance) (start : ros.Time) :
  stored_time start ->
  (forall m, m ∈ l -> stored_time (rosbag.time m)) ->
  let greatest :=
    foldl (fun end_ m =>
             if ros.ltb end_ (rosbag.time m) then rosbag.time m else end_)
          start l in
  stored_time greatest /\
  nanoseconds start <= nanoseconds greatest /\
  (forall m, m ∈ l -> nanoseconds (rosbag.time m) <= nanoseconds greatest) /\
  (greatest = start \/ exists m, m ∈ l /\ greatest = rosbag.time m).
Proof.
  revert start. induction l as [|m l IH]; intros start Hstart Hl; simpl.
  - split_and!; [done|lia| |by left]. by intros m ?%elem_of_nil.
  - assert (stored_time (rosbag.time m)) as Hm by (apply Hl; by left).
    assert (forall m', m' ∈ l -> stored_time (rosbag.time m')) as Hl'
      by (intros m' ?; apply Hl; by right).
    pose proof (ltb_nanoseconds start (rosbag.time m) Hstart Hm) as Hlt.
    destruct (ros.ltb start (rosbag.time m)).
    + destruct (IH (rosbag.time m) Hm Hl') as (Hs & Hle & Hall & Hwhich).
      assert (nanoseconds start < nanoseconds (rosbag.time m)) by by apply Hlt.
      split_and!; [done|lia| |].
      * intros m' [->|Hin]%elem_of_cons; [done|by apply Hall].
      * right. destruct Hwhich as [->|(m' & Hin & ->)].
        -- exists m. split; [by left|done].
        -- exists m'. split; [by right|done].
    + destruct (IH start Hstart Hl') as (Hs & Hle & Hall & Hwhich).
      assert (~ nanoseconds start < nanoseconds (rosbag.time m))
        by (intros Hn; apply Hlt in Hn; done).
      split_and!; [done..| |].
      * intros m' [->|Hin]%elem_of_cons; [lia|by apply Hall].
      * destruct Hwhich as [->|(m' & Hin & ->)]; [by left|].
        right. exists m'. split; [by right|done].
Qed.

Lemma stored_time_bounds (t : ros.Time) :
  stored_time t ->
  nanoseconds ros.TIME_MIN <= nanoseconds t <= nanoseconds ros.TIME_MAX.
Proof.
  unfold stored_time, uint32, nanoseconds. simpl. lia.
Qed.

(** X9. For a log with at least one record, whose times are as [rosbag]
    stores them, the starting time of the metadata is the time of the
    earliest record of the whole log and starting time plus duration is the
    time of the latest one, in nanoseconds and without wrap-around: every
    record, on a mapped channel or not, lies in between, and the duration is
    not negative. *)
Theorem metadata_spans_the_whole_log
    (get_1to2_mapping : string -> option string) (fs : FileSystem)
    (this : RosbagV2Storage) :
  rosbag.messages_ (ros_v2_bag_ this) <> [] ->
  (forall m, m ∈ rosbag.messages_ (ros_v2_bag_ this) ->
             stored_time (rosbag.time m)) ->
  let metadata := (get_metadata get_1to2_mapping fs this).2.1 in
  (exists first,
     first ∈ rosbag.messages_ (ros_v2_bag_ this) /\
     starting_time metadata = nanoseconds (rosbag.time first)) /\
  (exists last,
     last ∈ rosbag.messages_ (ros_v2_bag_ this) /\
     starting_time metadata + duration metadata = nanoseconds (rosbag.time last)) /\
  0 <= duration metadata /\
  forall m, m ∈ rosbag.messages_ (ros_v2_bag_ this) ->
    starting_time metadata <= nanoseconds (rosbag.time m)
    <= starting_time metadata + duration metadata.
Proof.
  intros Hsome Hstored metadata.
  assert (stored_time ros.TIME_MAX) as Hmax by compute_done.
  assert (stored_time ros.TIME_MIN) as Hmin by compute_done.
  destruct (least_time_fold _ _ Hmax Hstored) as (Hls & _ & Hleast & Hfirst).
  destruct (greatest_time_fold _ _ Hmin Hstored) as (Hgs & _ & Hgreatest & Hlast).
  set (least := foldl _ ros.TIME_MAX _) in *.
  set (greatest := foldl _ ros.TIME_MIN _) in *.
  destruct (toNSec_stored least Hls) as [Hln Hlr].
  destruct (toNSec_stored greatest Hgs) as [Hgn Hgr].
  destruct (rosbag.messages_ (ros_v2_bag_ this)) as [|m0 rest] eqn:Hmsgs; [done|].
  assert (m0 ∈ m0 :: rest) as Hm0 by by left.
  pose proof (stored_time_bounds _ (Hstored m0 Hm0)) as Hb0.
  pose proof (Hleast m0 Hm0) as Hl0. pose proof (Hgreatest m0 Hm0) as Hg0.
  assert (starting_time metadata = nanoseconds least) as Hstart.
  { subst metadata. unfold get_metadata. cbn [snd fst starting_time get_bagfile_size
      rcutils_get_file_size]. unfold rosbag.getBeginTime.
    rewrite view_messages_unrestricted, Hmsgs. fold least.
    rewrite Hln. unfold int64_of_uint64.
    destruct (Z.ltb_spec (nanoseconds least) (2 ^ 63)); lia. }
  assert (duration metadata = nanoseconds greatest - nanoseconds least) as Hduration.
  { subst metadata. unfold get_metadata. cbn [snd fst duration get_bagfile_size
      rcutils_get_file_size]. unfold rosbag.getBeginTime, rosbag.getEndTime.
    rewrite view_messages_unrestricted, Hmsgs. fold least. fold greatest.
    rewrite Hln, Hgn. unfold wrap_uint64. rewrite Z.mod_small by lia.
    unfold int64_of_uint64.
    destruct (Z.ltb_spec (nanoseconds greatest - nanoseconds least) (2 ^ 63)); lia. }
  rewrite Hstart, Hduration. split_and!.
  - destruct Hfirst as [Heq|(m & Hin & ->)]; [|eauto].
    exists m0. split; [done|]. rewrite Heq in *. lia.
  - destruct Hlast as [Heq|(m & Hin & Heq)].
    + exists m0. split; [done|]. rewrite Heq in *. lia.
    + exists m. split; [done|]. rewrite Heq. lia.
  - lia.
  - intros m Hm. specialize (Hleast m Hm). specialize (Hgreatest m Hm). lia.
Qed.

Lemma metadata_spans_the_whole_log_witness :
  let metadata :=
    (get_metadata Sample.mapping Sample.fs (Sample.opened "plain.bag")).2.1 in
  0 <= duration metadata /\
  forall m, m ∈ rosbag.messages_ (ros_v2_bag_ (Sample.opened "plain.bag")) ->
    starting_time metadata <= nanoseconds (rosbag.time m)
    <= starting_time metadata + duration metadata.
Proof.
  refine (proj2 (proj2 (metadata_spans_the_whole_log Sample.mapping Sample.fs
                          (Sample.opened "plain.bag") _ _))).
  - discriminate.
  - intros m Hm.
    repeat (apply elem_of_cons in Hm as [->|Hm]);
      [compute_done..|by apply elem_of_nil in Hm].
Defined.

(** ** [deserialize] on arbitrary buffers *)

(** X10. [deserialize] reads the type name up to the first NUL without
    looking at the buffer length: on a buffer without a NUL, the empty
    buffer among them, it reads past the end; on a buffer with a NUL whose
    length fits a [size_t] it stays inside the buffer and either fails with
    [UnmappedTypeError] or returns a message that carries the time stamp of
    the serialized message. *)
Theorem deserialize_needs_a_terminator
    (get_1to2_mapping : string -> option string) (Message : Type)
    (transcode : string -> list byte -> Message -> Message)
    (serialized_message : SerializedBagMessage)
    (ros_message : rosbag2_cpp.rosbag2_introspection_message_t Message) :
  (deserialize get_1to2_mapping transcode serialized_message ros_message
   = Undefined BufferOverrun
   <-> NUL ∉ serialized_data serialized_message) /\
  (NUL ∈ serialized_data serialized_message ->
   deserialize get_1to2_mapping transcode serialized_message ros_message
   = Throws UnmappedTypeError \/
   exists object,
     deserialize get_1to2_mapping transcode serialized_message ros_message
     = Returns object /\
     rosbag2_cpp.time_stamp object = time_stamp serialized_message).
Proof.
  unfold deserialize, split_tagged_buffer, string_of_char_ptr.
  destruct (decide (NUL ∈ serialized_data serialized_message)) as [Hin|Hout];
    cbn [mbind outcome_bind mret outcome_ret]; unfold convert_1_to_2.
  - destruct (get_1to2_mapping _); cbn [mbind outcome_bind mret outcome_ret].
    + split; [split; [discriminate|done]|]. intros _. right. eauto.
    + split; [split; [discriminate|done]|]. intros _. by left.
  - split; [done|]. done.
Qed.

Lemma deserialize_needs_a_terminator_witness :
  deserialize Sample.mapping Sample.keep_bytes
    {| serialized_data := bytes "std_msgs/String"; time_stamp := 7;
       topic_name := "/chatter" |} Sample.blank
  = Undefined BufferOverrun.
Proof.
  apply (proj2 (proj1 (deserialize_needs_a_terminator Sample.mapping (list byte)
                         Sample.keep_bytes _ Sample.blank))).
  compute_done.
Defined.

(** ** A log without a mapped connection *)

(** X11. When the file holds a log none of whose connections has a mapped
    type, a log without connections among them, a read-only [open]
    succeeds, but there is nothing to read and nothing to list: [has_next]
    is false at once, reading yields no record, and the adapter reports no
    topic, while the total message count still is the number of records of
    the log as a [uint32_t]. *)
Theorem nothing_to_replay_without_mapped_connection
    (get_1to2_mapping : string -> option string) (fs : FileSystem)
    (uri : string) (this : RosbagV2Storage)
    (conns : list rosbag.ConnectionInfo) (msgs : list rosbag.MessageInstance)
    (fuel : nat) :
  contents fs uri = Some (conns, msgs) ->
  (forall c, c ∈ conns -> ~ mapped get_1to2_mapping c) ->
  exists events this',
    open get_1to2_mapping fs uri READ_ONLY this = (events, Returns this') /\
    rosbag.connections_ (ros_v2_bag_ this') = conns /\
    rosbag.messages_ (ros_v2_bag_ this') = msgs /\
    has_next this' = Returns false /\
    read_while_has_next fuel this' = Returns ([], this') /\
    get_all_topics_and_types get_1to2_mapping this' = [] /\
    topics_with_message_count (get_metadata get_1to2_mapping fs this').2.1 = [] /\
    total_message_count (get_metadata get_1to2_mapping fs this').2.1
    = wrap_uint32 (Z.of_nat (length msgs)).
Proof.
  intros Hfile Hnone.
  destruct (open get_1to2_mapping fs uri READ_ONLY this) as [events result]
    eqn:Hopen.
  assert (exists this', result = Returns this') as [this' ->].
  { unfold open, Bag_open in Hopen. rewrite Hfile in Hopen.
    destruct (decide (READ_ONLY = READ_WRITE)) as [|_]; [done|].
    destruct (open_loop _ _) in Hopen. injection Hopen as _ <-. eauto. }
  exists events, this'. split; [reflexivity|].
  apply open_Returns in Hopen as (_ & conns' & msgs' & Hfile' & ->).
  rewrite Hfile in Hfile'. injection Hfile' as <- <-.
  set (bag := {| rosbag.file_name := uri; rosbag.connections_ := conns;
                 rosbag.messages_ := msgs |}) in *.
  set (this' := {| ros_v2_bag_ := bag |}) in *.
  assert (get_all_topics_and_types get_1to2_mapping this' = []) as Hlisted.
  { apply fmap_nil_inv with (f := name). apply elem_of_nil_inv.
    intros t (c & Hc & _ & Hmapped)%listed_topic_names_elem.
    by apply (Hnone c). }
  assert (topics_valid_in_ros2 get_1to2_mapping bag = []) as Htopics.
  { apply elem_of_nil_inv.
    intros t (c & Hc & _ & Hmapped)%topics_valid_in_ros2_elem.
    by apply (Hnone c). }
  assert (rosbag.view_messages
            (rosbag.make_View bag
               (rosbag.TopicQuery (topics_valid_in_ros2 get_1to2_mapping bag)))
          = []) as Hview.
  { rewrite Htopics. apply elem_of_nil_inv.
    intros m [_ Hm]%elem_of_view_messages. by apply elem_of_nil in Hm. }
  assert (has_next this' = Returns false) as Hnext.
  { erewrite has_next_at by reflexivity. by rewrite Hview. }
  split_and!.
  - reflexivity.
  - reflexivity.
  - done.
  - destruct fuel; [done|]. cbn [read_while_has_next]. by rewrite Hnext.
  - done.
  - unfold get_metadata. cbn [snd fst topics_with_message_count get_bagfile_size
      rcutils_get_file_size]. by rewrite get_topic_information_fmap, Hlisted.
  - unfold get_metadata. cbn [snd fst total_message_count get_bagfile_size
      rcutils_get_file_size]. unfold rosbag.size.
    by rewrite view_messages_unrestricted.
Qed.

Lemma nothing_to_replay_without_mapped_connection_witness :
  exists events this',
    open Sample.mapping MoreSamples.fs "unmapped_only.bag" READ_ONLY
      RosbagV2Storage_new = (events, Returns this') /\
    length (rosbag.connections_ (ros_v2_bag_ this')) = 2%nat /\
    has_next this' = Returns false /\
    get_all_topics_and_types Sample.mapping this' = [] /\
    total_message_count (get_metadata Sample.mapping MoreSamples.fs this').2.1 = 3.
Proof.
  destruct (nothing_to_replay_without_mapped_connection Sample.mapping
              MoreSamples.fs "unmapped_only.bag" RosbagV2Storage_new
              MoreSamples.unmapped_only_log.1 MoreSamples.unmapped_only_log.2
              1 eq_refl)
    as (events & this' & Hopen & Hconns & _ & Hnext & _ & Hlisted & _ & Htotal).
  - intros c Hc [host Hhost].
    repeat (apply elem_of_cons in Hc as [->|Hc]);
      [discriminate Hhost..|by apply elem_of_nil in Hc].
  - exists events, this'. split_and!; [done| |done|done|done].
    by rewrite Hconns.
Defined.

(** ** What is listed and what is replayed *)

Lemma get_all_topics_and_types_elem get_1to2_mapping this e :
  e ∈ get_all_topics_and_types get_1to2_mapping this <->
  exists c, c ∈ rosbag.connections_ (ros_v2_bag_ this) /\
            name e = rosbag.topic c /\
            get_1to2_mapping (rosbag.datatype c) = Some (type e) /\
            serialization_format e = "rosbag_v2".
Proof.
  rewrite get_all_topics_and_types_omap, list_elem_of_omap.
  destruct (legacy_entries_spec this) as [_ Hlegacy]. split.
  - intros (l & (c & Hc & ->)%Hlegacy & Hhost%host_entry_Some). eauto.
  - intros (c & Hc & Hname & Htype & Hformat).
    exists (legacy_entry c). split; [apply Hlegacy; eauto|].
    by apply host_entry_Some.
Qed.

(** X12. After a successful [open], the topic of every record in the view
    is among the topics that [get_all_topics_and_types] lists, and every
    listed topic is one that the view is restricted to.  On a log that
    assigns one type per topic, the host type listed for the topic is the
    mapping of the record's own type, so the type at the front of the
    record's buffer has an entry in the table. *)
Theorem replayed_topics_are_the_listed_topics
    (get_1to2_mapping : string -> option string) (fs : FileSystem)
    (uri : string) (flag : IOFlag) (this this' : RosbagV2Storage)
    (events : list event) :
  open get_1to2_mapping fs uri flag this = (events, Returns this') ->
  exists view,
    bag_view_of_replayable_messages_ this' = Some view /\
    (forall t,
       t ∈ name <$> get_all_topics_and_types get_1to2_mapping this' <->
       t ∈ topics_valid_in_ros2 get_1to2_mapping (ros_v2_bag_ this')) /\
    (forall m, m ∈ rosbag.view_messages view ->
       rosbag.getTopic m
       ∈ name <$> get_all_topics_and_types get_1to2_mapping this') /\
    (rosbag.Bag_ok (ros_v2_bag_ this') ->
     one_type_per_topic (ros_v2_bag_ this') ->
     forall m, m ∈ rosbag.view_messages view ->
       exists e,
         e ∈ get_all_topics_and_types get_1to2_mapping this' /\
         name e = rosbag.getTopic m /\
         get_1to2_mapping (rosbag.getDataType m) = Some (type e)).
Proof.
  intros Hopen.
  pose proof (listed_topic_names_elem get_1to2_mapping this') as Hnames.
  pose proof (get_all_topics_and_types_elem get_1to2_mapping this') as Hlisted.
  apply open_Returns in Hopen as (_ & conns & msgs & _ & ->).
  cbn [ros_v2_bag_ rosbag.connections_] in *.
  set (bag := {| rosbag.file_name := uri; rosbag.connections_ := conns;
                 rosbag.messages_ := msgs |}) in *.
  eexists. split; [reflexivity|]. split_and!.
  - intros t. rewrite Hnames. symmetry. apply topics_valid_in_ros2_elem.
  - intros m (_ & Hreplayed)%replayable_records. by apply Hnames.
  - intros Hok Hone m (Hm & c & Hc & Htopic & [host Hhost])%replayable_records.
    assert (rosbag.datatype c = rosbag.getDataType m) as Htype
      by (apply Hone; [done|by apply Hok|done]).
    exists {| name := rosbag.topic c; type := host;
              serialization_format := "rosbag_v2" |}.
    split_and!; [|done|by rewrite <- Htype].
    apply Hlisted. exists c. done.
Qed.

Lemma replayed_topics_are_the_listed_topics_witness :
  exists view,
    bag_view_of_replayable_messages_ (Sample.opened "plain.bag") = Some view /\
    forall m, m ∈ rosbag.view_messages view ->
      rosbag.getTopic m
      ∈ name <$> get_all_topics_and_types Sample.mapping
                   (Sample.opened "plain.bag").
Proof.
  destruct (replayed_topics_are_the_listed_topics Sample.mapping Sample.fs
              "plain.bag" READ_ONLY RosbagV2Storage_new
              (Sample.opened "plain.bag") _ eq_refl)
    as (view & Hview & _ & Htopics & _).
  exists view. split; assumption.
Defined.
